(** * EMACross: the bar handler of the EMA cross example strategy

    A shallow embedding of [examples/strategies/ema_cross.py] (class
    [EMACross]) and the properties of its per-bar decision logic: the warm-up
    gates and the liquidity gate of [on_bar], the signal of [_check_signal],
    the bracket built by [_enter_long] and [_enter_short], and the trailing
    stop sweep of [_check_trailing_stops].

    Conventions of the embedding.
    - A Python float and the value of a [Price] object is the rational it
      stands for ([Q]); NaN and infinities are outside the model.  A float
      operation returns its exact result rounded to a double: the rounding
      is the parameter [fl] of the methods, [fl (x + y)] being the float sum
      of [x] and [y], and [fl v] being [as_double()] of a [Price] of value
      [v].  The fields of a [Bar], the buffers and the indicator values are
      doubles as the methods receive them.  [price_entry - price_stop_loss]
      of [_enter_long], a difference of two [Price] objects, is the float
      difference of their [as_double()], as [_enter_short] writes it.  Float
      equality [==] is [Qeq_bool], the orderings are [Qle_bool] and
      [Qlt_bool].
    - The methods return nothing and act through the [TradingStrategy] base
      class (logger, order commands, the sizer).  Each method is a function
      to the list of [Effect]s it performs, in program order; an early
      [return] ends the list.
    - What the base class answers during one bar (working orders, flatness,
      account, exchange rate) is a field of the strategy record, read as a
      snapshot.
    - [Price(value, precision)] and [FixedRiskSizer.calculate] live outside
      this file of the repository; the methods take them as the parameters
      [Price] and [calculate]. *)

From Stdlib Require Import QArith ZArith List String Bool Lia Lqa.
From Stdlib Require Import Qround Qabs Qpower Ascii.
Import ListNotations.

Open Scope Q_scope.

(** ** Enumerations and value types *)

Inductive OrderSide : Type := UNDEFINED | BUY | SELL.

Inductive PriceType : Type := BID | ASK | MID | LAST.

Inductive TimeInForce : Type := DAY | GTC | IOC | FOC | GTD.

(** A [datetime] is a count of microseconds; [timedelta(minutes=m)]. *)
Definition datetime : Type := Z.

Definition timedelta_minutes (m : Z) : Z := (m * 60 * 1000000)%Z.

(** [bar.high.as_double()] and the like are the fields themselves. *)
Record Bar : Type := mkBar {
  open : Q;
  high : Q;
  low : Q;
  close : Q;
  volume : Z;
  timestamp : datetime
}.

(** [ExponentialMovingAverage] and [AverageTrueRange], as the strategy reads
    them: the current value and the warm-up flag. *)
Record Indicator : Type := mkIndicator {
  value : Q;
  initialized : bool
}.

Record SpreadAnalyzer : Type := mkSpreadAnalyzer {
  average : Q;
  current : Q;
  sa_initialized : bool
}.

(** A working order as the sweep reads it. *)
Record Order : Type := mkOrder {
  cl_ord_id : string;
  side : OrderSide;
  quantity : Z;
  price : Q
}.

Definition is_sell (o : Order) : bool :=
  match side o with SELL => true | _ => false end.

Definition is_buy (o : Order) : bool :=
  match side o with BUY => true | _ => false end.

(** The order built by [order_factory.stop]: the keyword arguments it is
    given. *)
Record StopOrder : Type := mkStopOrder {
  so_symbol : string;
  order_side : OrderSide;
  so_quantity : Z;
  so_price : Q;
  time_in_force : TimeInForce;
  expire_time : datetime
}.

(** The order built by [order_factory.bracket]. *)
Record BracketOrder : Type := mkBracketOrder {
  entry_order : StopOrder;
  stop_loss : Q;
  take_profit : Q
}.

(** The keyword arguments of [position_sizer.calculate]. *)
Record SizerArgs : Type := mkSizerArgs {
  equity : Q;
  sz_risk_bp : Q;
  entry : Q;
  sz_stop_loss : Q;
  exchange_rate : Q;
  commission_rate_bp : Q;
  hard_limit : Z;
  units : Z;
  unit_batch_size : Z
}.

(** A call that returns or raises [ValueError]. *)
Inductive Result (A : Type) : Type :=
| Return (a : A)
| ValueError (msg : string).

Arguments Return {A} a.
Arguments ValueError {A} msg.

(** ** The strategy object *)

Record EMACross : Type := mkEMACross {
  (* attributes set in __init__ and on_start *)
  symbol : string;
  bar_type : string;
  precision : Z;
  risk_bp : Q;
  entry_buffer : Q;
  SL_buffer : Q;
  SL_atr_multiple : Q;
  spread_analyzer : SpreadAnalyzer;
  quote_currency : string;
  fast_ema : Indicator;
  slow_ema : Indicator;
  atr : Indicator;
  (* what the TradingStrategy base class answers on this bar *)
  bar_count : nat;
  has_quote_ticks : bool;
  orders_working : list Order;     (* values of the dict, in its order *)
  is_flat : bool;
  stop_loss_ids : list string;
  free_equity : Q;
  get_exchange_rate_for_account : string -> PriceType -> Result Q
}.

(** The indicators registered in [on_start], in registration order. *)
Definition registered_indicators (self : EMACross) : list bool :=
  [ sa_initialized (spread_analyzer self);
    initialized (fast_ema self);
    initialized (slow_ema self);
    initialized (atr self) ].

(** Modelled from the spec: [indicators_initialized] of the base class, which
    is not in this file of the repository: every registered indicator is
    ready. *)
Definition indicators_initialized (self : EMACross) : bool :=
  forallb (fun ready => ready) (registered_indicators self).

Definition orders_working_count (self : EMACross) : nat :=
  List.length (orders_working self).

Definition is_stop_loss (self : EMACross) (id : string) : bool :=
  existsb (String.eqb id) (stop_loss_ids self).

(** ** Effects *)

Inductive LogMessage : Type :=
| ReceivedBar (bt : string) (bar : Bar)
| WaitingForIndicators (count : nat)
| WaitingForTicks (sym : string)
| AverageSpreadNotInitialized (average_spread : Q)
| InsufficientEquityBuy
| InsufficientEquitySell
| Raised (ex : string).

Inductive Effect : Type :=
| LogInfo (m : LogMessage)
| LogWarning (m : LogMessage)
| LogError (m : LogMessage)
| Calculate (args : SizerArgs)
| SubmitBracketOrder (b : BracketOrder)
| ModifyOrder (order : Order) (new_quantity : Z) (new_price : Q).

Definition is_log (e : Effect) : bool :=
  match e with
  | LogInfo _ | LogWarning _ | LogError _ => true
  | _ => false
  end.

Definition is_calculate (e : Effect) : bool :=
  match e with Calculate _ => true | _ => false end.

Definition is_submit (e : Effect) : bool :=
  match e with SubmitBracketOrder _ => true | _ => false end.

Definition is_modify (e : Effect) : bool :=
  match e with ModifyOrder _ _ _ => true | _ => false end.

(** ** Float helpers *)

Definition Qlt_bool (x y : Q) : bool := negb (Qle_bool y x).

(** Python's [max(a, b)]: [b] when [b > a], else [a]. *)
Definition max (a b : Q) : Q := if Qlt_bool a b then b else a.

(** ** The methods *)

Section Methods.

(** The rounding of an exact result to a double. *)
Variable fl : Q -> Q.

(** [Price(value, precision)]: the value rounded to [precision] decimal
    places, by the rule of the [Price] class. *)
Variable Price : Q -> Z -> Q.

(** [FixedRiskSizer.calculate]. *)
Variable calculate : SizerArgs -> Z.

Definition gt (a b : Q) : bool := Qlt_bool b a.
Definition lt (a b : Q) : bool := Qlt_bool a b.

(** The [try] block: the rate, 0.0 when the lookup raised, and what was
    logged. *)
Definition lookup_exchange_rate (self : EMACross) (pt : PriceType)
  : Q * list Effect :=
  match get_exchange_rate_for_account self (quote_currency self) pt with
  | Return r => (r, [])
  | ValueError ex => (0, [LogError (Raised ex)])
  end.

Definition _enter_long (self : EMACross) (bar : Bar)
    (sl_buffer spread_buffer : Q) : list Effect :=
  let price_entry :=
    Price (fl (fl (high bar + entry_buffer self) + spread_buffer))
      (precision self) in
  let price_stop_loss := Price (fl (low bar - sl_buffer)) (precision self) in
  let risk := fl (fl price_entry - fl price_stop_loss) in
  let price_take_profit :=
    Price (fl (fl price_entry + risk)) (precision self) in
  let '(exchange_rate, logged) := lookup_exchange_rate self ASK in
  if Qeq_bool exchange_rate 0 then logged
  else
    let args :=
      mkSizerArgs (free_equity self) (risk_bp self) price_entry
        price_stop_loss exchange_rate (15 # 100) 20000000 1 10000 in
    let position_size := calculate args in
    logged ++ Calculate args ::
      (if (position_size =? 0)%Z then [LogInfo InsufficientEquityBuy]
       else
         let entry_order :=
           mkStopOrder (symbol self) BUY position_size price_entry GTD
             (timestamp bar + timedelta_minutes 1)%Z in
         let bracket_order :=
           mkBracketOrder entry_order price_stop_loss price_take_profit in
         [SubmitBracketOrder bracket_order]).

Definition _enter_short (self : EMACross) (bar : Bar)
    (sl_buffer spread_buffer : Q) : list Effect :=
  let price_entry :=
    Price (fl (low bar - entry_buffer self)) (precision self) in
  let price_stop_loss :=
    Price (fl (fl (high bar + sl_buffer) + spread_buffer))
      (precision self) in
  let risk := fl (fl price_stop_loss - fl price_entry) in
  let price_take_profit :=
    Price (fl (fl price_entry - risk)) (precision self) in
  let '(exchange_rate, logged) := lookup_exchange_rate self BID in
  if Qeq_bool exchange_rate 0 then logged
  else
    let args :=
      mkSizerArgs (free_equity self) (risk_bp self) price_entry
        price_stop_loss exchange_rate (15 # 100) 20000000 1 10000 in
    let position_size := calculate args in
    logged ++ Calculate args ::
      (if (position_size =? 0)%Z then [LogInfo InsufficientEquitySell]
       else
         let entry_order :=
           mkStopOrder (symbol self) SELL position_size price_entry GTD
             (timestamp bar + timedelta_minutes 1)%Z in
         let bracket_order :=
           mkBracketOrder entry_order price_stop_loss price_take_profit in
         [SubmitBracketOrder bracket_order]).

Definition _check_signal (self : EMACross) (bar : Bar)
    (sl_buffer spread_buffer : Q) : list Effect :=
  if (orders_working_count self =? 0)%nat && is_flat self then
    if Qle_bool (value (slow_ema self)) (value (fast_ema self)) then
      _enter_long self bar sl_buffer spread_buffer
    else if Qlt_bool (value (fast_ema self)) (value (slow_ema self)) then
      _enter_short self bar sl_buffer spread_buffer
    else []
  else [].

(** The body of the [for] loop after the role test: what one stop-loss leg
    gets. *)
Definition trail_order (self : EMACross) (bar : Bar)
    (sl_buffer spread_buffer : Q) (order : Order) : list Effect :=
  if is_sell order then
    let temp_price := Price (fl (low bar - sl_buffer)) (precision self) in
    if gt temp_price (price order) then
      [ModifyOrder order (quantity order) temp_price]
    else []
  else if is_buy order then
    let temp_price :=
      Price (fl (fl (high bar + sl_buffer) + spread_buffer)) (precision self) in
    if lt temp_price (price order) then
      [ModifyOrder order (quantity order) temp_price]
    else []
  else [].

(** The [for] loop over [orders_working().values()]; the [return] on a leg
    that is not a stop-loss leaves the loop and the method. *)
Fixpoint trailing_loop (self : EMACross) (bar : Bar)
    (sl_buffer spread_buffer : Q) (orders : list Order) : list Effect :=
  match orders with
  | [] => []
  | order :: rest =>
      if negb (is_stop_loss self (cl_ord_id order)) then []
      else trail_order self bar sl_buffer spread_buffer order
             ++ trailing_loop self bar sl_buffer spread_buffer rest
  end.

Definition _check_trailing_stops (self : EMACross) (bar : Bar)
    (sl_buffer spread_buffer : Q) : list Effect :=
  trailing_loop self bar sl_buffer spread_buffer (orders_working self).

Definition on_bar (self : EMACross) (bt : string) (bar : Bar)
  : list Effect :=
  LogInfo (ReceivedBar bt bar) ::
  if negb (indicators_initialized self) then
    [LogInfo (WaitingForIndicators (bar_count self))]
  else if negb (has_quote_ticks self) then
    [LogInfo (WaitingForTicks (symbol self))]
  else
    let average_spread := average (spread_analyzer self) in
    if Qeq_bool average_spread 0 then
      [LogWarning (AverageSpreadNotInitialized average_spread)]
    else
      let spread_buffer :=
        max average_spread (current (spread_analyzer self)) in
      let sl_buffer := fl (value (atr self) * SL_atr_multiple self) in
      let liquidity_ratio := fl (value (atr self) / average_spread) in
      (if Qle_bool 2 liquidity_ratio then
         _check_signal self bar sl_buffer spread_buffer
       else [])
      ++ _check_trailing_stops self bar sl_buffer spread_buffer.

(** The arguments [_enter_long] passes to the sizer at a rate [r]. *)
Definition long_args (self : EMACross) (bar : Bar)
    (sl_buffer spread_buffer r : Q) : SizerArgs :=
  mkSizerArgs (free_equity self) (risk_bp self)
    (Price (fl (fl (high bar + entry_buffer self) + spread_buffer))
      (precision self))
    (Price (fl (low bar - sl_buffer)) (precision self))
    r (15 # 100) 20000000 1 10000.

(** The arguments [_enter_short] passes to the sizer at a rate [r]. *)
Definition short_args (self : EMACross) (bar : Bar)
    (sl_buffer spread_buffer r : Q) : SizerArgs :=
  mkSizerArgs (free_equity self) (risk_bp self)
    (Price (fl (low bar - entry_buffer self)) (precision self))
    (Price (fl (fl (high bar + sl_buffer) + spread_buffer)) (precision self))
    r (15 # 100) 20000000 1 10000.

End Methods.

(** A working order before and after trailing: the same order, its price
    moved only towards the market (up for a sell stop, down for a buy
    stop). *)
Definition never_loosened (o o' : Order) : Prop :=
  cl_ord_id o' = cl_ord_id o /\ side o' = side o /\
  match side o with
  | SELL => price o <= price o'
  | BUY => price o' <= price o
  | UNDEFINED => price o' == price o
  end.

(** ** The collaborators, for running the methods *)

(** Float operations with no rounding error.  The sample values below are
    clear of the rounding ties of [Price], and the sample brackets are those
    of the double arithmetic as well ([sample_brackets_in_doubles]). *)
Definition exact (x : Q) : Q := x.

(** Modelled from the spec: the constructor of the [Price] class, which is not
    in this file of the repository: the value rounded to [precision] decimal
    places, halves to the even neighbour. *)
Definition Price_half_even (v : Q) (precision : Z) : Q :=
  let scale := Qpower 10 precision in
  let scaled := v * scale in
  let below := Qfloor scaled in
  let rest := scaled - inject_Z below in
  let units :=
    if Qlt_bool rest (1 # 2) then below
    else if Qlt_bool (1 # 2) rest then (below + 1)%Z
    else if Z.even below then below else (below + 1)%Z in
  Qred (inject_Z units / scale).

(** Modelled from the spec: [FixedRiskSizer.calculate], which is not in this
    file of the repository: the money at risk over the risk of one unit
    (price distance in account currency plus the commission on the notional),
    rounded down to whole lots and clamped to the hard limit; no quantity when
    the risk of one unit is not positive. *)
Definition FixedRiskSizer_calculate (a : SizerArgs) : Z :=
  let risk_amount := equity a * sz_risk_bp a / 10000 in
  let risk_per_unit :=
    Qabs (entry a - sz_stop_loss a) * exchange_rate a
    + entry a * exchange_rate a * commission_rate_bp a / 10000 in
  if Qle_bool risk_per_unit 0 then 0%Z
  else
    let raw_quantity := risk_amount / risk_per_unit in
    let lots := Qfloor (raw_quantity / inject_Z (unit_batch_size a)) in
    Z.min (lots * unit_batch_size a) (hard_limit a).

(** Modelled from the spec: what an accepted [modify_order] does to the
    working orders, which the execution side (not in this file of the
    repository) carries out: the order with that identifier takes the new
    quantity and price, every other order is as before. *)
Definition modified (target : Order) (new_quantity : Z) (new_price : Q)
    (o : Order) : Order :=
  if String.eqb (cl_ord_id o) (cl_ord_id target) then
    mkOrder (cl_ord_id o) (side o) new_quantity new_price
  else o.

Definition apply_effect (orders : list Order) (e : Effect) : list Order :=
  match e with
  | ModifyOrder target q p => map (modified target q p) orders
  | _ => orders
  end.

Definition apply_effects (orders : list Order) (es : list Effect)
  : list Order :=
  fold_left apply_effect es orders.

Definition with_orders_working (self : EMACross) (orders : list Order)
  : EMACross :=
  mkEMACross (symbol self) (bar_type self) (precision self) (risk_bp self)
    (entry_buffer self) (SL_buffer self) (SL_atr_multiple self)
    (spread_analyzer self) (quote_currency self) (fast_ema self)
    (slow_ema self) (atr self) (bar_count self) (has_quote_ticks self)
    orders (is_flat self) (stop_loss_ids self) (free_equity self)
    (get_exchange_rate_for_account self).

(** The working orders after the sweep of one bar. *)
Definition swept (fl : Q -> Q) (Price : Q -> Z -> Q) (self : EMACross)
    (bar : Bar)
    (sl_buffer spread_buffer : Q) : list Order :=
  apply_effects (orders_working self)
    (_check_trailing_stops fl Price self bar sl_buffer spread_buffer).

(** The working orders after the sweeps of consecutive bars, each with its
    own buffers. *)
Fixpoint swept_bars (fl : Q -> Q) (Price : Q -> Z -> Q) (self : EMACross)
    (bars : list (Bar * Q * Q)) : list Order :=
  match bars with
  | [] => orders_working self
  | (bar, sl_buffer, spread_buffer) :: rest =>
      swept_bars fl Price
        (with_orders_working self
           (swept fl Price self bar sl_buffer spread_buffer))
        rest
  end.

(** ** Sample data *)

Definition a_bar : Bar :=
  mkBar (11005 # 10000) (11020 # 10000) (11010 # 10000) (11015 # 10000)
    1000000%Z 1600000000000000%Z.

Definition stop_leg : Order := mkOrder "O-1-SL" SELL 50000%Z (11000 # 10000).

Definition profit_leg : Order := mkOrder "O-1-TP" SELL 50000%Z (11100 # 10000).

Definition rate_of (r : Q) : string -> PriceType -> Result Q :=
  fun _ _ => Return r.

Definition rate_unavailable : string -> PriceType -> Result Q :=
  fun _ _ => ValueError "Cannot calculate exchange rate".

(** A warmed-up, flat strategy on AUD/USD: ATR 0.0005, average spread
    0.0001. *)
Definition strategy (fast slow average_spread : Q)
    (orders : list Order)
    (xrate : string -> PriceType -> Result Q) : EMACross :=
  mkEMACross "AUD/USD" "AUD/USD-1-MINUTE-BID" 5%Z 10 (3 # 100000)
    (10 # 100000) 1
    (mkSpreadAnalyzer average_spread average_spread true) "USD"
    (mkIndicator fast true) (mkIndicator slow true)
    (mkIndicator (5 # 10000) true)
    30%nat true orders (match orders with [] => true | _ => false end)
    ["O-1-SL"%string] 100000 xrate.

(** The brackets the sample strategy submits on [a_bar] with stop buffer
    0.0005 and spread buffer 0.0001. *)
Definition long_bracket : BracketOrder :=
  mkBracketOrder
    (mkStopOrder "AUD/USD" BUY 60000 (110213 # 100000) GTD
       1600000060000000%Z)
    (2201 # 2000) (13797 # 12500).

Definition short_bracket : BracketOrder :=
  mkBracketOrder
    (mkStopOrder "AUD/USD" SELL 60000 (110097 # 100000) GTD
       1600000060000000%Z)
    (5513 # 5000) (54967 # 50000).

(** ** The leg a stop-loss order becomes when it is trailed *)

(** The whole number of price steps [Price_half_even] rounds to. *)
Definition half_even_units (v : Q) (precision : Z) : Z :=
  let scaled := v * Qpower 10 precision in
  let below := Qfloor scaled in
  let rest := scaled - inject_Z below in
  if Qlt_bool rest (1 # 2) then below
  else if Qlt_bool (1 # 2) rest then (below + 1)%Z
  else if Z.even below then below else (below + 1)%Z.

(** Modelled from IEEE 754, the arithmetic of Python floats: a rational
    rounded to the nearest double, a tie going to the even significand of 53
    bits.  Overflow and subnormal numbers are outside the model. *)
Definition binary64 (x : Q) : Q :=
  if Qeq_bool x 0 then 0
  else
    let a := Qabs x in
    let guess := (Z.log2 (Qnum a) - Z.log2 (Zpos (Qden a)))%Z in
    let e := if Qle_bool (Qpower 2 guess) a then guess else (guess - 1)%Z in
    let ulp := Qpower 2 (e - 52) in
    let m := half_even_units (a / ulp) 0 in
    Qred ((if Qle_bool 0 x then 1 else - (1)) * inject_Z m * ulp).

(** One leg after the modification [trail_order] issues for it, if any, has
    been carried out. *)
Definition trailed (fl : Q -> Q) (Price : Q -> Z -> Q) (self : EMACross)
    (bar : Bar)
    (sl_buffer spread_buffer : Q) (o : Order) : Order :=
  match trail_order fl Price self bar sl_buffer spread_buffer o with
  | ModifyOrder _ q p :: _ => mkOrder (cl_ord_id o) (side o) q p
  | _ => o
  end.

(** The working orders with the loop of [_check_trailing_stops] carried out
    leg by leg, in place: the legs up to the first one that is not a
    stop-loss are trailed, the others are left. *)
Fixpoint trailed_in_place (fl : Q -> Q) (Price : Q -> Z -> Q) (self : EMACross)
    (bar : Bar)
    (sl_buffer spread_buffer : Q) (orders : list Order) : list Order :=
  match orders with
  | [] => []
  | order :: rest =>
      if negb (is_stop_loss self (cl_ord_id order)) then order :: rest
      else trailed fl Price self bar sl_buffer spread_buffer order
             :: trailed_in_place fl Price self bar sl_buffer spread_buffer rest
  end.

(** What trailing does to one leg: the same order at the same quantity, a
    sell stop at the higher of its price and the candidate, a buy stop at
    the lower. *)
Definition trailed_to (fl : Q -> Q) (Price : Q -> Z -> Q) (self : EMACross)
    (bar : Bar)
    (sl_buffer spread_buffer : Q) (o o' : Order) : Prop :=
  cl_ord_id o' = cl_ord_id o /\ side o' = side o /\
  quantity o' = quantity o /\
  match side o with
  | SELL =>
      let candidate := Price (fl (low bar - sl_buffer)) (precision self) in
      price o <= price o' /\ candidate <= price o' /\
      (price o' = price o \/ price o' = candidate)
  | BUY =>
      let candidate :=
        Price (fl (fl (high bar + sl_buffer) + spread_buffer))
          (precision self) in
      price o' <= price o /\ price o' <= candidate /\
      (price o' = price o \/ price o' = candidate)
  | UNDEFINED => o' = o
  end.

(** The order a modification is for. *)
Definition modify_target (e : Effect) : option string :=
  match e with
  | ModifyOrder order _ _ => Some (cl_ord_id order)
  | _ => None
  end.

(** A sizer call or a bracket submission. *)
Definition is_entry_effect (e : Effect) : bool :=
  is_calculate e || is_submit e.

(** ** Start and disposal of the strategy *)

(** The instrument as [on_start] reads it; [tick_size] is its
    [as_double()]. *)
Record Instrument : Type := mkInstrument {
  price_precision : Z;
  tick_size : Q;
  instrument_quote_currency : string
}.

(** The indicator objects of the strategy. *)
Inductive IndicatorRef : Type := SPREAD_ANALYZER | FAST_EMA | SLOW_EMA | ATR.

(** The calls [on_start] and [on_dispose] make on the base class. *)
Inductive Request : Type :=
| register_indicator_for_quote_ticks (sym : string) (i : IndicatorRef)
| register_indicator_for_bars (bt : string) (i : IndicatorRef)
| request_quote_ticks (sym : string)
| request_bars (bt : string)
| subscribe_instrument (sym : string)
| subscribe_bars (bt : string)
| subscribe_quote_ticks (sym : string)
| unsubscribe_instrument (sym : string)
| unsubscribe_bars (bt : string)
| unsubscribe_quote_ticks (sym : string).

(** A live data feed. *)
Inductive Feed : Type :=
| InstrumentFeed (sym : string)
| BarFeed (bt : string)
| QuoteTickFeed (sym : string).

Definition subscribed (r : Request) : option Feed :=
  match r with
  | subscribe_instrument sym => Some (InstrumentFeed sym)
  | subscribe_bars bt => Some (BarFeed bt)
  | subscribe_quote_ticks sym => Some (QuoteTickFeed sym)
  | _ => None
  end.

Definition unsubscribed (r : Request) : option Feed :=
  match r with
  | unsubscribe_instrument sym => Some (InstrumentFeed sym)
  | unsubscribe_bars bt => Some (BarFeed bt)
  | unsubscribe_quote_ticks sym => Some (QuoteTickFeed sym)
  | _ => None
  end.

Fixpoint choose {A B : Type} (f : A -> option B) (l : list A) : list B :=
  match l with
  | [] => []
  | a :: rest =>
      match f a with
      | Some b => b :: choose f rest
      | None => choose f rest
      end
  end.

(** [on_start], given the instrument [self.instrument(self.symbol)] returns:
    the strategy with its attributes set, and the calls made.  The sizer
    built here, [FixedRiskSizer(instrument)], is the parameter [calculate] of
    the entry methods. *)
Definition on_start (fl : Q -> Q) (self : EMACross)
    (instrument : Instrument) : EMACross * list Request :=
  (mkEMACross (symbol self) (bar_type self)
     (price_precision instrument) (risk_bp self)
     (fl (tick_size instrument * 3)) (fl (tick_size instrument * 10))
     (SL_atr_multiple self)
     (spread_analyzer self) (instrument_quote_currency instrument)
     (fast_ema self) (slow_ema self) (atr self) (bar_count self)
     (has_quote_ticks self) (orders_working self) (is_flat self)
     (stop_loss_ids self) (free_equity self)
     (get_exchange_rate_for_account self),
   [ register_indicator_for_quote_ticks (symbol self) SPREAD_ANALYZER;
     register_indicator_for_bars (bar_type self) FAST_EMA;
     register_indicator_for_bars (bar_type self) SLOW_EMA;
     register_indicator_for_bars (bar_type self) ATR;
     request_quote_ticks (symbol self);
     request_bars (bar_type self);
     subscribe_instrument (symbol self);
     subscribe_bars (bar_type self);
     subscribe_quote_ticks (symbol self) ]).

Definition on_dispose (self : EMACross) : list Request :=
  [ unsubscribe_instrument (symbol self);
    unsubscribe_bars (bar_type self);
    unsubscribe_quote_ticks (symbol self) ].

(** The strategy with another [SL_buffer]. *)
Definition with_SL_buffer (self : EMACross) (b : Q) : EMACross :=
  mkEMACross (symbol self) (bar_type self) (precision self) (risk_bp self)
    (entry_buffer self) b (SL_atr_multiple self)
    (spread_analyzer self) (quote_currency self) (fast_ema self)
    (slow_ema self) (atr self) (bar_count self) (has_quote_ticks self)
    (orders_working self) (is_flat self) (stop_loss_ids self)
    (free_equity self) (get_exchange_rate_for_account self).

(** [s.replace('/', '')]. *)
Fixpoint replace_slash (s : string) : string :=
  match s with
  | EmptyString => EmptyString
  | String c rest =>
      if Ascii.eqb c "/"%char then replace_slash rest
      else String c (replace_slash rest)
  end.

(** The [order_id_tag] that [__init__] passes to the base class, from
    [symbol.code] and [extra_id_tag]. *)
Definition order_id_tag (code extra_id_tag : string) : string :=
  (replace_slash code ++ extra_id_tag)%string.

(** Whether a character occurs in a string. *)
Fixpoint occurs (c : Ascii.ascii) (s : string) : bool :=
  match s with
  | EmptyString => false
  | String d rest => Ascii.eqb d c || occurs c rest
  end.

(** * The Interactive Brokers instrument filter

    [adapters/interactive_brokers/config.py], class
    [InteractiveBrokersInstrumentFilter].  An [Optional[str]] is an
    [option string]; the contents of the [option_kwargs] dict play no part
    and are of a type [dict] left open. *)

Module IBConfig.

(** What a call comes to: the value returned, or the exception raised. *)
Inductive Exception : Type :=
| UnpackValueError          (* not enough values to unpack *)
| MultipleValuesTypeError.  (* got multiple values for keyword argument *)

Inductive Outcome (A : Type) : Type :=
| Returns (a : A)
| Raises (e : Exception).

Arguments Returns {A} a.
Arguments Raises {A} e.

(** [s.rsplit(sep, maxsplit=1)] for a separator of one character: the
    string itself when [sep] does not occur, else what is before and what is
    after the last [sep]. *)
Fixpoint rsplit (s : string) (sep : ascii) : list string :=
  match s with
  | EmptyString => [EmptyString]
  | String c rest =>
      match rsplit rest sep with
      | [tail] =>
          if Ascii.eqb c sep then [EmptyString; tail] else [String c tail]
      | head :: more => String c head :: more
      | [] => []
      end
  end.

(** Truth value of an [Optional[str]]: [None] and the empty string are
    false. *)
Definition truthy (o : option string) : bool :=
  match o with
  | Some (String _ _) => true
  | _ => false
  end.

(** Python's [a or b]. *)
Definition or_else (a b : option string) : option string :=
  if truthy a then a else b.

(** The keyword arguments [ib_insync.Contract] is given by [to_contract]. *)
Record Contract : Type := mkContract {
  c_secType : option string;
  c_symbol : option string;
  c_exchange : option string;
  c_primaryExchange : option string
}.

Section Filter.

Variable dict : Type.

Record InteractiveBrokersInstrumentFilter : Type := mkFilter {
  secType : option string;
  symbol : option string;
  exchange : option string;
  primaryExchange : option string;
  load_futures : bool;
  load_options : bool;
  option_kwargs : option dict
}.

(** [**kwargs] restricted to the fields of the class: for each field, the
    value passed under that keyword, if any. *)
Record Kwargs : Type := mkKwargs {
  kw_secType : option (option string);
  kw_symbol : option (option string);
  kw_exchange : option (option string);
  kw_primaryExchange : option (option string);
  kw_load_futures : option bool;
  kw_load_options : option bool;
  kw_option_kwargs : option (option dict)
}.

Definition no_kwargs : Kwargs :=
  mkKwargs None None None None None None None.

(** A keyword argument, or the default of the field when it is not given. *)
Definition given {A : Type} (passed : option A) (default : A) : A :=
  match passed with
  | Some v => v
  | None => default
  end.

Definition from_instrument_id (value : string) (kwargs : Kwargs)
  : Outcome InteractiveBrokersInstrumentFilter :=
  match rsplit value "."%char with
  | [local_symbol; primary_exchange] =>
      match kw_symbol kwargs, kw_primaryExchange kwargs with
      | None, None =>
          Returns
            (mkFilter (given (kw_secType kwargs) None)
               (Some local_symbol)
               (given (kw_exchange kwargs) None)
               (Some primary_exchange)
               (given (kw_load_futures kwargs) false)
               (given (kw_load_options kwargs) false)
               (given (kw_option_kwargs kwargs) None))
      | _, _ => Raises MultipleValuesTypeError
      end
  | _ => Raises UnpackValueError
  end.

Definition sec_type_only (t : string) : Kwargs :=
  mkKwargs (Some (Some t)) None None None None None None.

Definition stock (value : string)
  : Outcome InteractiveBrokersInstrumentFilter :=
  from_instrument_id value (sec_type_only "STK").

Definition forex (value : string)
  : Outcome InteractiveBrokersInstrumentFilter :=
  from_instrument_id value (sec_type_only "CASH").

Definition future (value : string)
  : Outcome InteractiveBrokersInstrumentFilter :=
  from_instrument_id value (sec_type_only "FUT").

Definition to_contract (self : InteractiveBrokersInstrumentFilter)
  : Contract :=
  mkContract (secType self) (symbol self)
    (or_else (exchange self) (primaryExchange self))
    (primaryExchange self).

End Filter.

Arguments secType {dict} _.
Arguments symbol {dict} _.
Arguments exchange {dict} _.
Arguments primaryExchange {dict} _.
Arguments load_futures {dict} _.
Arguments load_options {dict} _.
Arguments option_kwargs {dict} _.
Arguments kw_secType {dict} _.
Arguments kw_symbol {dict} _.
Arguments kw_exchange {dict} _.
Arguments kw_primaryExchange {dict} _.
Arguments kw_load_futures {dict} _.
Arguments kw_load_options {dict} _.
Arguments kw_option_kwargs {dict} _.
Arguments from_instrument_id {dict} value kwargs.
Arguments to_contract {dict} self.

End IBConfig.

(** A bar as the feed delivers it to double arithmetic: every price the
    double nearest to it. *)
Definition in_doubles (bar : Bar) : Bar :=
  mkBar (binary64 (open bar)) (binary64 (high bar)) (binary64 (low bar))
    (binary64 (close bar)) (volume bar) (timestamp bar).

(** The sample strategy started, in double arithmetic, on an instrument of
    five decimal places and tick size 0.00001: its entry buffer is the
    double 3.0000000000000004e-05. *)
Definition tie_strategy : EMACross :=
  fst (on_start binary64 (strategy 1 1 (1 # 10000) [] (rate_of 1))
         (mkInstrument 5 (binary64 (1 # 100000)) "USD")).

(** A bar, in doubles, whose high 1.09053 with the entry buffer of
    [tie_strategy] and a spread buffer of 0.000005 on top lies next to
    1.090565, a rounding tie of the fifth decimal place. *)
Definition tie_bar : Bar :=
  mkBar (binary64 (109040 # 100000)) (binary64 (109053 # 100000))
    (binary64 (109030 # 100000)) (binary64 (109050 # 100000))
    1000%Z 1600000000000000%Z.

(** The BUY bracket [tie_strategy] submits on [tie_bar] with stop buffer
    0.0005 and spread buffer 0.000005, both doubles. *)
Definition tie_bracket : BracketOrder :=
  mkBracketOrder
    (mkStopOrder "AUD/USD" BUY 120000 (109057 # 100000) GTD
       1600000060000000%Z)
    (5449 # 5000) (54567 # 50000).

(** ** Orderings on floats *)

Lemma Qlt_bool_iff (x y : Q) : Qlt_bool x y = true <-> x < y.
Proof.
  unfold Qlt_bool. rewrite negb_true_iff. split; intro H.
  - apply Qnot_le_lt. intro Hle. apply Qle_bool_iff in Hle. congruence.
  - destruct (Qle_bool y x) eqn:E; [| reflexivity].
    apply Qle_bool_iff in E. exfalso. exact (Qlt_not_le _ _ H E).
Qed.

(** ** Effects of the parts of [on_bar] *)

Lemma only_logs_no_calculate (l : list Effect) :
  forallb is_log l = true -> existsb is_calculate l = false.
Proof.
  induction l as [| e l IH]; simpl; [reflexivity |].
  intro H. apply andb_true_iff in H as [He Hl].
  rewrite (IH Hl). destruct e; simpl in *; congruence.
Qed.

Lemma only_logs_no_submit (l : list Effect) :
  forallb is_log l = true -> existsb is_submit l = false.
Proof.
  induction l as [| e l IH]; simpl; [reflexivity |].
  intro H. apply andb_true_iff in H as [He Hl].
  rewrite (IH Hl). destruct e; simpl in *; congruence.
Qed.

Lemma only_logs_no_modify (l : list Effect) :
  forallb is_log l = true -> existsb is_modify l = false.
Proof.
  induction l as [| e l IH]; simpl; [reflexivity |].
  intro H. apply andb_true_iff in H as [He Hl].
  rewrite (IH Hl). destruct e; simpl in *; congruence.
Qed.

Lemma only_logs_apply (orders : list Order) (l : list Effect) :
  forallb is_log l = true -> apply_effects orders l = orders.
Proof.
  unfold apply_effects. revert orders.
  induction l as [| e l IH]; simpl; intros orders H; [reflexivity |].
  apply andb_true_iff in H as [He Hl].
  destruct e; simpl in *; try discriminate; now apply IH.
Qed.

Lemma lookup_only_logs (self : EMACross) (pt : PriceType) :
  forallb is_log (snd (lookup_exchange_rate self pt)) = true.
Proof.
  unfold lookup_exchange_rate.
  destruct (get_exchange_rate_for_account self (quote_currency self) pt);
    reflexivity.
Qed.

Lemma in_only_logs (l : list Effect) (e : Effect) :
  forallb is_log l = true -> In e l -> is_log e = true.
Proof.
  intros H Hin. rewrite forallb_forall in H. now apply H.
Qed.

Section Entries.

Variable fl : Q -> Q.
Variable Price : Q -> Z -> Q.
Variable calculate : SizerArgs -> Z.

Lemma enter_long_submit_iff self bar sl_buffer spread_buffer :
  let r := fst (lookup_exchange_rate self ASK) in
  existsb is_submit
    (_enter_long fl Price calculate self bar sl_buffer spread_buffer)
  = negb (Qeq_bool r 0)
    && negb (calculate (long_args fl Price self bar sl_buffer spread_buffer r)
             =? 0)%Z.
Proof.
  unfold _enter_long, long_args.
  pose proof (lookup_only_logs self ASK) as Hlog.
  destruct (lookup_exchange_rate self ASK) as [r logged]. simpl in *.
  destruct (Qeq_bool r 0); simpl.
  - now apply only_logs_no_submit.
  - rewrite existsb_app, (only_logs_no_submit _ Hlog). simpl.
    match goal with |- context [(?c =? 0)%Z] => destruct (c =? 0)%Z end;
      reflexivity.
Qed.

Lemma enter_short_submit_iff self bar sl_buffer spread_buffer :
  let r := fst (lookup_exchange_rate self BID) in
  existsb is_submit
    (_enter_short fl Price calculate self bar sl_buffer spread_buffer)
  = negb (Qeq_bool r 0)
    && negb (calculate (short_args fl Price self bar sl_buffer spread_buffer r)
             =? 0)%Z.
Proof.
  unfold _enter_short, short_args.
  pose proof (lookup_only_logs self BID) as Hlog.
  destruct (lookup_exchange_rate self BID) as [r logged]. simpl in *.
  destruct (Qeq_bool r 0); simpl.
  - now apply only_logs_no_submit.
  - rewrite existsb_app, (only_logs_no_submit _ Hlog). simpl.
    match goal with |- context [(?c =? 0)%Z] => destruct (c =? 0)%Z end;
      reflexivity.
Qed.

(** Every bracket [_enter_long] submits, spelled out. *)
Lemma enter_long_submitted self bar sl_buffer spread_buffer b :
  In (SubmitBracketOrder b)
     (_enter_long fl Price calculate self bar sl_buffer spread_buffer) ->
  let e := Price (fl (fl (high bar + entry_buffer self) + spread_buffer))
             (precision self) in
  let s := Price (fl (low bar - sl_buffer)) (precision self) in
  exists r,
    b = mkBracketOrder
          (mkStopOrder (symbol self) BUY
             (calculate (long_args fl Price self bar sl_buffer spread_buffer r))
             e GTD (timestamp bar + timedelta_minutes 1)%Z)
          s (Price (fl (fl e + fl (fl e - fl s))) (precision self)).
Proof.
  unfold _enter_long, long_args.
  pose proof (lookup_only_logs self ASK) as Hlog.
  destruct (lookup_exchange_rate self ASK) as [r logged]. simpl in *.
  intro Hin. exists r.
  destruct (Qeq_bool r 0).
  - apply (in_only_logs _ _ Hlog) in Hin. discriminate.
  - apply in_app_or in Hin as [Hin | Hin].
    + apply (in_only_logs _ _ Hlog) in Hin. discriminate.
    + destruct Hin as [Hin | Hin]; [discriminate |].
      match type of Hin with context [(?c =? 0)%Z] =>
        destruct (c =? 0)%Z end;
        destruct Hin as [Hin | []]; [discriminate |].
      now inversion Hin.
Qed.

(** Every bracket [_enter_short] submits, spelled out. *)
Lemma enter_short_submitted self bar sl_buffer spread_buffer b :
  In (SubmitBracketOrder b)
     (_enter_short fl Price calculate self bar sl_buffer spread_buffer) ->
  let e := Price (fl (low bar - entry_buffer self)) (precision self) in
  let s := Price (fl (fl (high bar + sl_buffer) + spread_buffer))
    (precision self) in
  exists r,
    b = mkBracketOrder
          (mkStopOrder (symbol self) SELL
             (calculate
               (short_args fl Price self bar sl_buffer spread_buffer r))
             e GTD (timestamp bar + timedelta_minutes 1)%Z)
          s (Price (fl (fl e - fl (fl s - fl e))) (precision self)).
Proof.
  unfold _enter_short, short_args.
  pose proof (lookup_only_logs self BID) as Hlog.
  destruct (lookup_exchange_rate self BID) as [r logged]. simpl in *.
  intro Hin. exists r.
  destruct (Qeq_bool r 0).
  - apply (in_only_logs _ _ Hlog) in Hin. discriminate.
  - apply in_app_or in Hin as [Hin | Hin].
    + apply (in_only_logs _ _ Hlog) in Hin. discriminate.
    + destruct Hin as [Hin | Hin]; [discriminate |].
      match type of Hin with context [(?c =? 0)%Z] =>
        destruct (c =? 0)%Z end;
        destruct Hin as [Hin | []]; [discriminate |].
      now inversion Hin.
Qed.

End Entries.

(** ** The trailing stop sweep *)

Section Sweep.

Variable fl : Q -> Q.
Variable Price : Q -> Z -> Q.

Lemma trail_order_cases self bar sl_buffer spread_buffer order :
  trail_order fl Price self bar sl_buffer spread_buffer order = [] \/
  exists p,
    trail_order fl Price self bar sl_buffer spread_buffer order
      = [ModifyOrder order (quantity order) p] /\
    ((side order = SELL /\ p = Price (fl (low bar - sl_buffer)) (precision self)
      /\ price order < p) \/
     (side order = BUY
      /\ p = Price (fl (fl (high bar + sl_buffer) + spread_buffer))
        (precision self)
      /\ p < price order)).
Proof.
  unfold trail_order, is_sell, is_buy, gt, lt.
  destruct (side order) eqn:Hside.
  - now left.
  - destruct (Qlt_bool _ (price order)) eqn:Hlt; [| now left].
    right. eexists. split; [reflexivity |]. right.
    apply Qlt_bool_iff in Hlt. auto.
  - destruct (Qlt_bool (price order) _) eqn:Hlt; [| now left].
    right. eexists. split; [reflexivity |]. left.
    apply Qlt_bool_iff in Hlt. auto.
Qed.

Lemma trailing_loop_modifies self bar sl_buffer spread_buffer orders
    order q p :
  In (ModifyOrder order q p)
     (trailing_loop fl Price self bar sl_buffer spread_buffer orders) ->
  In order orders /\ is_stop_loss self (cl_ord_id order) = true /\
  q = quantity order /\
  ((side order = SELL /\ p = Price (fl (low bar - sl_buffer)) (precision self)
    /\ price order < p) \/
   (side order = BUY
    /\ p = Price (fl (fl (high bar + sl_buffer) + spread_buffer))
      (precision self)
    /\ p < price order)).
Proof.
  induction orders as [| o rest IH]; simpl; [intros [] |].
  destruct (is_stop_loss self (cl_ord_id o)) eqn:Hsl; simpl; [| intros []].
  intro Hin. apply in_app_or in Hin as [Hin | Hin].
  - destruct (trail_order_cases self bar sl_buffer spread_buffer o)
      as [Hnil | (p' & Heq & Hcases)].
    + rewrite Hnil in Hin. destruct Hin.
    + rewrite Heq in Hin. destruct Hin as [Hin | []].
      inversion Hin; subst. auto.
  - destruct (IH Hin) as (Ho & Hrest). auto.
Qed.

Lemma trailing_loop_only_modifies self bar sl_buffer spread_buffer orders :
  forallb is_modify
    (trailing_loop fl Price self bar sl_buffer spread_buffer orders) = true.
Proof.
  induction orders as [| o rest IH]; simpl; [reflexivity |].
  destruct (is_stop_loss self (cl_ord_id o)); simpl; [| reflexivity].
  rewrite forallb_app, IH, andb_true_r.
  destruct (trail_order_cases self bar sl_buffer spread_buffer o)
    as [Hnil | (p & Heq & _)]; [rewrite Hnil | rewrite Heq]; reflexivity.
Qed.

(** The sweep stops at the first leg that is not a stop-loss. *)
Lemma trailing_loop_non_stop_head self bar sl_buffer spread_buffer o rest :
  is_stop_loss self (cl_ord_id o) = false ->
  trailing_loop fl Price self bar sl_buffer spread_buffer (o :: rest) = [].
Proof. intro H. simpl. now rewrite H. Qed.

End Sweep.

(** ** Trailing never loosens *)

Lemma never_loosened_refl (o : Order) : never_loosened o o.
Proof.
  unfold never_loosened. repeat split.
  destruct (side o); try apply Qle_refl. reflexivity.
Qed.

Lemma never_loosened_trans (a b c : Order) :
  never_loosened a b -> never_loosened b c -> never_loosened a c.
Proof.
  unfold never_loosened. intros (Hid1 & Hs1 & Hp1) (Hid2 & Hs2 & Hp2).
  rewrite Hs1 in Hp2. repeat split; try congruence.
  destruct (side a).
  - now rewrite Hp2.
  - now apply Qle_trans with (price b).
  - now apply Qle_trans with (price b).
Qed.

Lemma Forall2_never_loosened_trans (l1 l2 l3 : list Order) :
  Forall2 never_loosened l1 l2 -> Forall2 never_loosened l2 l3 ->
  Forall2 never_loosened l1 l3.
Proof.
  intro H. revert l3. induction H; intros l3 H23; inversion H23; subst.
  - constructor.
  - constructor; eauto using never_loosened_trans.
Qed.

Lemma Forall2_never_loosened_ids (l l' : list Order) :
  Forall2 never_loosened l l' -> map cl_ord_id l' = map cl_ord_id l.
Proof.
  induction 1 as [| o o' l l' (Hid & _) _ IH]; simpl; congruence.
Qed.

Lemma NoDup_map_injective {A B : Type} (f : A -> B) (l : list A) (a b : A) :
  NoDup (map f l) -> In a l -> In b l -> f a = f b -> a = b.
Proof.
  induction l as [| x l IH]; simpl; [intros _ [] |].
  intros Hnd Ha Hb Heq. inversion Hnd as [| ? ? Hnot Hnd']; subst.
  destruct Ha as [-> | Ha], Hb as [-> | Hb]; auto.
  - exfalso. apply Hnot. rewrite Heq. now apply in_map.
  - exfalso. apply Hnot. rewrite <- Heq. now apply in_map.
Qed.

Lemma Forall2_map_right_in {A B : Type} (R R' : A -> B -> Prop)
    (f : B -> B) (l : list A) (l' : list B) :
  Forall2 R l l' ->
  (forall a b, In a l -> R a b -> R' a (f b)) ->
  Forall2 R' l (map f l').
Proof.
  induction 1 as [| a b l l' Hab _ IH]; simpl; intro Hstep; constructor.
  - apply Hstep; simpl; auto.
  - apply IH. intros a' b' Hin. apply Hstep. simpl; auto.
Qed.

Lemma Forall2_diagonal {A : Type} (R : A -> A -> Prop) (l : list A) :
  (forall a, R a a) -> Forall2 R l l.
Proof. intro H. induction l; constructor; auto. Qed.

Lemma apply_effects_app (orders : list Order) (es es' : list Effect) :
  apply_effects orders (es ++ es')
  = apply_effects (apply_effects orders es) es'.
Proof. unfold apply_effects. apply fold_left_app. Qed.

Section Trailing.

Variable fl : Q -> Q.
Variable Price : Q -> Z -> Q.

(** The loop over the legs still to visit, [rest], run on the current
    orders [cur]: the legs not yet visited are untouched so far, and at the
    end no leg of the snapshot [L] has been loosened. *)
Lemma trailing_loop_never_loosens self bar sl_buffer spread_buffer
    (L : list Order) :
  NoDup (map cl_ord_id L) ->
  forall rest pre cur,
    L = pre ++ rest ->
    Forall2 (fun o o' => never_loosened o o' /\
                         (In (cl_ord_id o) (map cl_ord_id rest) -> o' = o))
            L cur ->
    Forall2 never_loosened L
      (apply_effects cur
         (trailing_loop fl Price self bar sl_buffer spread_buffer rest)).
Proof.
  intro Hnd. induction rest as [| x rest IH]; intros pre cur HL Hinv.
  - unfold apply_effects. simpl.
    eapply Forall2_impl; [| exact Hinv]. now intros a b [H _].
  - simpl. destruct (is_stop_loss self (cl_ord_id x)); simpl.
    + rewrite apply_effects_app. apply (IH (pre ++ [x])).
      { now rewrite <- app_assoc. }
      destruct (trail_order_cases fl Price self bar sl_buffer spread_buffer x)
        as [Hnil | (p & Heq & Hcases)].
      * rewrite Hnil. unfold apply_effects. simpl.
        eapply Forall2_impl; [| exact Hinv].
        intros a b [H1 H2]. split; [exact H1 |].
        intro Hin. apply H2. simpl. now right.
      * rewrite Heq. unfold apply_effects. simpl.
        eapply Forall2_map_right_in; [exact Hinv |].
        intros a b Ha [Hnl Hsame]. unfold modified.
        destruct (String.eqb (cl_ord_id b) (cl_ord_id x)) eqn:Heqb.
        -- apply String.eqb_eq in Heqb.
           assert (Hax : cl_ord_id a = cl_ord_id x)
             by (destruct Hnl as (Hid & _); congruence).
           assert (Hba : b = a) by (apply Hsame; simpl; left; congruence).
           assert (Hx : a = x).
           { apply (NoDup_map_injective cl_ord_id L); auto.
             rewrite HL. apply in_or_app. right. now left. }
           subst b. subst a. split.
           ++ unfold never_loosened. simpl. repeat split.
              destruct Hcases as [(Hs & _ & Hlt) | (Hs & _ & Hlt)];
                rewrite Hs; now apply Qlt_le_weak.
           ++ intro Hin. exfalso.
              rewrite HL, map_app in Hnd. simpl in Hnd.
              apply NoDup_remove_2 in Hnd. apply Hnd.
              apply in_or_app. now right.
        -- split; [exact Hnl |].
           intro Hin. apply Hsame. simpl. now right.
    + unfold apply_effects. simpl.
      eapply Forall2_impl; [| exact Hinv]. now intros a b [H _].
Qed.

Lemma swept_never_loosens self bar sl_buffer spread_buffer :
  NoDup (map cl_ord_id (orders_working self)) ->
  Forall2 never_loosened (orders_working self)
    (swept fl Price self bar sl_buffer spread_buffer).
Proof.
  intro Hnd. unfold swept, _check_trailing_stops.
  apply (trailing_loop_never_loosens self bar sl_buffer spread_buffer
           (orders_working self) Hnd (orders_working self) []);
    [reflexivity |].
  apply Forall2_diagonal. intro o. split;
    [apply never_loosened_refl | reflexivity].
Qed.

Lemma swept_bars_snoc bars : forall self bar sl_buffer spread_buffer,
  swept_bars fl Price self (bars ++ [(bar, sl_buffer, spread_buffer)])
  = swept fl Price (with_orders_working self (swept_bars fl Price self bars))
      bar sl_buffer spread_buffer.
Proof.
  induction bars as [| [[b s] t] bars IH]; intros self bar sl_buffer spb.
  - simpl. destruct self; reflexivity.
  - simpl. rewrite IH. destruct self; reflexivity.
Qed.

Lemma swept_bars_never_loosens bars : forall self,
  NoDup (map cl_ord_id (orders_working self)) ->
  Forall2 never_loosened (orders_working self) (swept_bars fl Price self bars).
Proof.
  induction bars as [| [[b s] t] bars IH]; intros self Hnd; simpl.
  - apply Forall2_diagonal, never_loosened_refl.
  - pose proof (swept_never_loosens self b s t Hnd) as Hstep.
    eapply Forall2_never_loosened_trans; [exact Hstep |].
    apply (IH (with_orders_working self (swept fl Price self b s t))).
    simpl. now rewrite (Forall2_never_loosened_ids _ _ Hstep).
Qed.

End Trailing.

(** ** The gates of [on_bar] *)

Lemma not_ready_iff (self : EMACross) :
  In false (registered_indicators self) <->
  indicators_initialized self = false.
Proof.
  unfold indicators_initialized.
  induction (registered_indicators self) as [| r l IH]; simpl.
  - split; [intros [] | discriminate].
  - destruct r; simpl.
    + rewrite <- IH. split; [intros [H | H]; [discriminate | exact H] | auto].
    + split; auto.
Qed.

Section Gates.

Variable fl : Q -> Q.
Variable Price : Q -> Z -> Q.
Variable calculate : SizerArgs -> Z.

Lemma on_bar_rejected self bt bar :
  indicators_initialized self = false \/
  has_quote_ticks self = false \/
  average (spread_analyzer self) == 0 ->
  forallb is_log (on_bar fl Price calculate self bt bar) = true.
Proof.
  intro H. unfold on_bar. simpl.
  destruct (indicators_initialized self); simpl; [| reflexivity].
  destruct (has_quote_ticks self); simpl; [| reflexivity].
  destruct H as [H | [H | H]]; try discriminate.
  apply Qeq_bool_iff in H. now rewrite H.
Qed.

Lemma on_bar_accepted self bt bar :
  indicators_initialized self = true ->
  has_quote_ticks self = true ->
  ~ average (spread_analyzer self) == 0 ->
  let average_spread := average (spread_analyzer self) in
  let spread_buffer := max average_spread (current (spread_analyzer self)) in
  let sl_buffer := fl (value (atr self) * SL_atr_multiple self) in
  on_bar fl Price calculate self bt bar
  = LogInfo (ReceivedBar bt bar) ::
    (if Qle_bool 2 (fl (value (atr self) / average_spread)) then
       _check_signal fl Price calculate self bar sl_buffer spread_buffer
     else [])
    ++ _check_trailing_stops fl Price self bar sl_buffer spread_buffer.
Proof.
  intros Hready Hticks Hspread. unfold on_bar.
  rewrite Hready, Hticks. simpl.
  destruct (Qeq_bool (average (spread_analyzer self)) 0) eqn:E;
    [| reflexivity].
  apply Qeq_bool_iff in E. contradiction.
Qed.

Lemma check_signal_cases self bar sl_buffer spread_buffer :
  _check_signal fl Price calculate self bar sl_buffer spread_buffer = [] \/
  _check_signal fl Price calculate self bar sl_buffer spread_buffer
    = _enter_long fl Price calculate self bar sl_buffer spread_buffer \/
  _check_signal fl Price calculate self bar sl_buffer spread_buffer
    = _enter_short fl Price calculate self bar sl_buffer spread_buffer.
Proof.
  unfold _check_signal.
  destruct ((orders_working_count self =? 0)%nat && is_flat self); auto.
  destruct (Qle_bool _ _); auto.
  destruct (Qlt_bool _ _); auto.
Qed.

(** A bracket submitted during [on_bar] comes from one of the two entry
    methods, run on the bar and the buffers of that bar. *)
Lemma on_bar_submitted self bt bar b :
  In (SubmitBracketOrder b) (on_bar fl Price calculate self bt bar) ->
  exists sl_buffer spread_buffer,
    In (SubmitBracketOrder b)
       (_enter_long fl Price calculate self bar sl_buffer spread_buffer) \/
    In (SubmitBracketOrder b)
       (_enter_short fl Price calculate self bar sl_buffer spread_buffer).
Proof.
  intro Hin.
  destruct (indicators_initialized self) eqn:Hready.
  2:{ apply (in_only_logs _ _
               (on_bar_rejected self bt bar (or_introl Hready))) in Hin.
      discriminate. }
  destruct (has_quote_ticks self) eqn:Hticks.
  2:{ apply (in_only_logs _ _
               (on_bar_rejected self bt bar (or_intror (or_introl Hticks))))
        in Hin.
      discriminate. }
  destruct (Qeq_dec (average (spread_analyzer self)) 0) as [Hz | Hnz].
  { apply (in_only_logs _ _
             (on_bar_rejected self bt bar (or_intror (or_intror Hz)))) in Hin.
    discriminate. }
  rewrite (on_bar_accepted self bt bar Hready Hticks Hnz) in Hin.
  destruct Hin as [Hin | Hin]; [discriminate |].
  apply in_app_or in Hin as [Hin | Hin].
  - destruct (Qle_bool 2 _); [| destruct Hin].
    do 2 eexists.
    destruct (check_signal_cases self bar
                (fl (value (atr self) * SL_atr_multiple self))
                (max (average (spread_analyzer self))
                   (current (spread_analyzer self))))
      as [H | [H | H]]; rewrite H in Hin; [destruct Hin | left | right];
      exact Hin.
  - unfold _check_trailing_stops in Hin.
    pose proof (trailing_loop_only_modifies fl Price self bar
                  (fl (value (atr self) * SL_atr_multiple self))
                  (max (average (spread_analyzer self))
                     (current (spread_analyzer self)))
                  (orders_working self)) as Hmod.
    rewrite forallb_forall in Hmod. apply Hmod in Hin. discriminate.
Qed.

End Gates.

(** ** The trailing stop sweep and legs that are not stop-losses *)

(** C1 (the code departs from the claim): the sweep is to skip a leg that is
    not a stop-loss and go on to the legs after it.  With the take-profit leg
    ahead of the stop-loss leg, the stop-loss leg on its own would be moved
    from 1.1000 to 1.1005, but the sweep returns at the take-profit leg and
    modifies nothing, in [_check_trailing_stops] and so in [on_bar]. *)
Theorem trailing_sweep_returns_at_non_stop_leg :
  let self := strategy 1 2 (1 # 10000) [profit_leg; stop_leg] (rate_of 1) in
  is_stop_loss self (cl_ord_id profit_leg) = false /\
  is_stop_loss self (cl_ord_id stop_leg) = true /\
  trail_order exact Price_half_even self a_bar (5 # 10000) (1 # 10000) stop_leg
    = [ModifyOrder stop_leg 50000 (2201 # 2000)] /\
  _check_trailing_stops exact Price_half_even self a_bar (5 # 10000) (1 # 10000)
    = [] /\
  existsb is_modify
    (on_bar exact Price_half_even FixedRiskSizer_calculate self
       "AUD/USD-1-MINUTE-BID" a_bar) = false.
Proof. repeat split; vm_compute; reflexivity. Qed.

(** ** Degenerate brackets *)

(** C2 (as stated, refuted): a BUY bracket whose stop-loss lies above its
    entry (stop buffer -0.0020, risk -0.00087) is sized and submitted. *)
Lemma degenerate_bracket_submitted :
  let self := strategy 1 1 (1 # 10000) [] (rate_of 1) in
  let sl_buffer := - (20 # 10000) in
  let spread_buffer := 1 # 10000 in
  let e := Price_half_even (high a_bar + entry_buffer self + spread_buffer)
             (precision self) in
  let s := Price_half_even (low a_bar - sl_buffer) (precision self) in
  ~ (e - s <= 0 ->
     existsb is_submit
       (_enter_long exact Price_half_even FixedRiskSizer_calculate self a_bar
          sl_buffer spread_buffer) = false).
Proof.
  intros self sl_buffer spread_buffer e s H.
  assert (Hrisk : e - s <= 0) by (vm_compute; discriminate).
  specialize (H Hrisk). vm_compute in H. discriminate.
Qed.

(** C2 (amended): whether an entry method submits its bracket is decided by
    the exchange rate and the sized quantity alone: it submits exactly when
    the rate it holds after the lookup is not 0.0 and the sizer returns a
    quantity other than 0; the sign of the computed risk is not tested. *)
Theorem entry_submits_iff_rate_and_size (fl : Q -> Q) (Price : Q -> Z -> Q)
    (calculate : SizerArgs -> Z) (self : EMACross) (bar : Bar)
    (sl_buffer spread_buffer : Q) :
  existsb is_submit
    (_enter_long fl Price calculate self bar sl_buffer spread_buffer)
  = negb (Qeq_bool (fst (lookup_exchange_rate self ASK)) 0)
    && negb (calculate
               (long_args fl Price self bar sl_buffer spread_buffer
                  (fst (lookup_exchange_rate self ASK))) =? 0)%Z
  /\
  existsb is_submit
    (_enter_short fl Price calculate self bar sl_buffer spread_buffer)
  = negb (Qeq_bool (fst (lookup_exchange_rate self BID)) 0)
    && negb (calculate
               (short_args fl Price self bar sl_buffer spread_buffer
                  (fst (lookup_exchange_rate self BID))) =? 0)%Z.
Proof.
  split.
  - apply enter_long_submit_iff.
  - apply enter_short_submit_iff.
Qed.

(** ** Rounding to the price grid *)

Lemma scale_positive (precision : Z) : 0 < Qpower 10 precision.
Proof. apply Qpower_0_lt. reflexivity. Qed.

Lemma Price_half_even_comp (v w : Q) (precision : Z) :
  v == w -> Price_half_even v precision = Price_half_even w precision.
Proof.
  intro H. unfold Price_half_even, Qlt_bool. cbv zeta.
  assert (Hs : v * Qpower 10 precision == w * Qpower 10 precision)
    by now rewrite H.
  rewrite (Qfloor_comp _ _ Hs).
  set (below := Qfloor (w * Qpower 10 precision)).
  assert (Hr : v * Qpower 10 precision - inject_Z below
               == w * Qpower 10 precision - inject_Z below)
    by now rewrite Hs.
  rewrite (Qleb_comp _ _ Hr (1 # 2) (1 # 2) (Qeq_refl _)).
  rewrite (Qleb_comp (1 # 2) (1 # 2) (Qeq_refl _) _ _ Hr).
  reflexivity.
Qed.

(** A value with [precision] decimal places is its own rounding. *)
Lemma Price_half_even_on_grid (k : Z) (precision : Z) :
  Price_half_even (inject_Z k / Qpower 10 precision) precision
  == inject_Z k / Qpower 10 precision.
Proof.
  pose proof (scale_positive precision) as Hpos.
  assert (Hnz : ~ Qpower 10 precision == 0).
  { intro H. rewrite H in Hpos. discriminate. }
  unfold Price_half_even. cbv zeta.
  assert (Hscaled : inject_Z k / Qpower 10 precision * Qpower 10 precision
                    == inject_Z k) by (field; exact Hnz).
  rewrite (Qfloor_comp _ _ Hscaled), Qfloor_Z.
  assert (Hrest : Qlt_bool
                    (inject_Z k / Qpower 10 precision * Qpower 10 precision
                     - inject_Z k) (1 # 2) = true).
  { apply Qlt_bool_iff. rewrite Hscaled.
    setoid_replace (inject_Z k - inject_Z k) with 0 by ring. reflexivity. }
  rewrite Hrest. apply Qred_correct.
Qed.

Lemma Price_half_even_is_on_grid (v : Q) (precision : Z) :
  exists k, Price_half_even v precision == inject_Z k / Qpower 10 precision.
Proof.
  unfold Price_half_even. cbv zeta. eexists. apply Qred_correct.
Qed.

(** With no float error the sums rounded for the take-profit are on the grid
    already, so [Price_half_even] returns them as they are. *)
Lemma Price_half_even_fixes_take_profit (v w : Q) (precision : Z) :
  let e := Price_half_even v precision in
  let s := Price_half_even w precision in
  Price_half_even (e + (e - s)) precision == e + (e - s) /\
  Price_half_even (e - (s - e)) precision == e - (s - e).
Proof.
  intros e s.
  pose proof (scale_positive precision) as Hpos.
  assert (Hnz : ~ Qpower 10 precision == 0).
  { intro H. rewrite H in Hpos. discriminate. }
  destruct (Price_half_even_is_on_grid v precision) as [a Ha].
  destruct (Price_half_even_is_on_grid w precision) as [b Hb].
  fold e in Ha. fold s in Hb.
  assert (Hsum : e + (e - s)
                 == inject_Z (a + (a - b)) / Qpower 10 precision).
  { rewrite Ha, Hb, inject_Z_plus. unfold Z.sub.
    rewrite inject_Z_plus, inject_Z_opp. field. exact Hnz. }
  assert (Hdiff : e - (s - e)
                  == inject_Z (a - (b - a)) / Qpower 10 precision).
  { rewrite Ha, Hb. unfold Z.sub.
    rewrite inject_Z_plus, inject_Z_opp, inject_Z_plus, inject_Z_opp.
    field. exact Hnz. }
  split.
  - rewrite (Price_half_even_comp _ _ precision Hsum), Hsum.
    apply Price_half_even_on_grid.
  - rewrite (Price_half_even_comp _ _ precision Hdiff), Hdiff.
    apply Price_half_even_on_grid.
Qed.

(** ** The signal *)

(** C5: [_check_signal] does nothing unless no order is working and the
    position is flat; then a fast EMA at or above the slow EMA (a tie
    included) runs the BUY entry and every bracket it submits is a BUY, and a
    fast EMA below the slow EMA runs the SELL entry and every bracket it
    submits is a SELL. *)
Theorem check_signal_decision (fl : Q -> Q) (Price : Q -> Z -> Q)
    (calculate : SizerArgs -> Z) (self : EMACross) (bar : Bar)
    (sl_buffer spread_buffer : Q) :
  (orders_working_count self <> 0%nat \/ is_flat self = false ->
   _check_signal fl Price calculate self bar sl_buffer spread_buffer = [])
  /\
  (orders_working_count self = 0%nat -> is_flat self = true ->
   (value (slow_ema self) <= value (fast_ema self) ->
    _check_signal fl Price calculate self bar sl_buffer spread_buffer
      = _enter_long fl Price calculate self bar sl_buffer spread_buffer /\
    forall b,
      In (SubmitBracketOrder b)
         (_check_signal fl Price calculate self bar sl_buffer spread_buffer) ->
      order_side (entry_order b) = BUY)
   /\
   (value (fast_ema self) < value (slow_ema self) ->
    _check_signal fl Price calculate self bar sl_buffer spread_buffer
      = _enter_short fl Price calculate self bar sl_buffer spread_buffer /\
    forall b,
      In (SubmitBracketOrder b)
         (_check_signal fl Price calculate self bar sl_buffer spread_buffer) ->
      order_side (entry_order b) = SELL)).
Proof.
  split.
  - intros [Hcount | Hflat]; unfold _check_signal.
    + apply Nat.eqb_neq in Hcount. now rewrite Hcount.
    + rewrite Hflat. now rewrite andb_false_r.
  - intros Hcount Hflat.
    assert (Hlong : value (slow_ema self) <= value (fast_ema self) ->
              _check_signal fl Price calculate self bar sl_buffer spread_buffer
              = _enter_long fl Price calculate self bar sl_buffer
                spread_buffer).
    { intro Hle. unfold _check_signal. rewrite Hcount, Hflat. simpl.
      apply Qle_bool_iff in Hle. now rewrite Hle. }
    assert (Hshort : value (fast_ema self) < value (slow_ema self) ->
              _check_signal fl Price calculate self bar sl_buffer spread_buffer
              = _enter_short fl Price calculate self bar sl_buffer
                  spread_buffer).
    { intro Hlt. unfold _check_signal. rewrite Hcount, Hflat. simpl.
      pose proof Hlt as Hlt'. apply Qlt_bool_iff in Hlt'. rewrite Hlt'.
      destruct (Qle_bool (value (slow_ema self)) (value (fast_ema self)))
        eqn:E; [| reflexivity].
      apply Qle_bool_iff in E. exfalso. exact (Qlt_not_le _ _ Hlt E). }
    split; intro H; (split; [auto |]); intros b Hin.
    + rewrite (Hlong H) in Hin.
      now apply enter_long_submitted in Hin as [r ->].
    + rewrite (Hshort H) in Hin.
      now apply enter_short_submitted in Hin as [r ->].
Qed.

Lemma check_signal_decision_witness :
  _check_signal exact Price_half_even FixedRiskSizer_calculate
    (strategy 1 1 (1 # 10000) [stop_leg] (rate_of 1)) a_bar
    (5 # 10000) (1 # 10000) = []
  /\
  (forall b,
     In (SubmitBracketOrder b)
        (_check_signal exact Price_half_even FixedRiskSizer_calculate
           (strategy 1 1 (1 # 10000) [] (rate_of 1)) a_bar
           (5 # 10000) (1 # 10000)) ->
     order_side (entry_order b) = BUY)
  /\
  (forall b,
     In (SubmitBracketOrder b)
        (_check_signal exact Price_half_even FixedRiskSizer_calculate
           (strategy 1 2 (1 # 10000) [] (rate_of 1)) a_bar
           (5 # 10000) (1 # 10000)) ->
     order_side (entry_order b) = SELL).
Proof.
  split; [| split].
  - apply (check_signal_decision exact Price_half_even
             FixedRiskSizer_calculate).
    left. vm_compute. discriminate.
  - apply (check_signal_decision exact Price_half_even FixedRiskSizer_calculate
             (strategy 1 1 (1 # 10000) [] (rate_of 1))).
    + reflexivity.
    + reflexivity.
    + vm_compute. discriminate.
  - apply (check_signal_decision exact Price_half_even FixedRiskSizer_calculate
             (strategy 1 2 (1 # 10000) [] (rate_of 1))).
    + reflexivity.
    + reflexivity.
    + vm_compute. reflexivity.
Defined.

(** ** The liquidity gate *)

(** C6: on a bar that passed the warm-up gates, with liquidity ratio =
    ATR / average spread: at a ratio of 2.0 or more (2.0 itself included)
    the signal is checked and then the trailing stops are swept; below 2.0
    only the sweep runs; so the sizer is called or a bracket submitted only
    at a ratio of 2.0 or more. *)
Theorem liquidity_gate (fl : Q -> Q) (Price : Q -> Z -> Q)
    (calculate : SizerArgs -> Z)
    (self : EMACross) (bt : string) (bar : Bar) :
  indicators_initialized self = true ->
  has_quote_ticks self = true ->
  ~ average (spread_analyzer self) == 0 ->
  let average_spread := average (spread_analyzer self) in
  let spread_buffer := max average_spread (current (spread_analyzer self)) in
  let sl_buffer := fl (value (atr self) * SL_atr_multiple self) in
  let liquidity_ratio := fl (value (atr self) / average_spread) in
  (2 <= liquidity_ratio ->
   on_bar fl Price calculate self bt bar
   = LogInfo (ReceivedBar bt bar) ::
     _check_signal fl Price calculate self bar sl_buffer spread_buffer
     ++ _check_trailing_stops fl Price self bar sl_buffer spread_buffer)
  /\
  (liquidity_ratio < 2 ->
   on_bar fl Price calculate self bt bar
   = LogInfo (ReceivedBar bt bar) ::
     _check_trailing_stops fl Price self bar sl_buffer spread_buffer)
  /\
  (existsb (fun e => is_calculate e || is_submit e)
     (on_bar fl Price calculate self bt bar) = true ->
   2 <= liquidity_ratio).
Proof.
  intros Hready Hticks Hspread average_spread spread_buffer sl_buffer
    liquidity_ratio.
  pose proof (on_bar_accepted fl Price calculate self bt bar Hready Hticks
                Hspread) as Heq.
  simpl in Heq. fold average_spread spread_buffer sl_buffer in Heq.
  fold liquidity_ratio in Heq.
  split; [| split].
  - intro Hle. apply Qle_bool_iff in Hle. now rewrite Heq, Hle.
  - intro Hlt. rewrite Heq.
    destruct (Qle_bool 2 liquidity_ratio) eqn:E; [| reflexivity].
    apply Qle_bool_iff in E. exfalso. exact (Qlt_not_le _ _ Hlt E).
  - intro Hex. destruct (Qle_bool 2 liquidity_ratio) eqn:E.
    + now apply Qle_bool_iff.
    + rewrite Heq in Hex. simpl in Hex.
      unfold _check_trailing_stops in Hex.
      pose proof (trailing_loop_only_modifies fl Price self bar sl_buffer
                    spread_buffer (orders_working self)) as Hmod.
      apply existsb_exists in Hex as (e & Hin & He).
      rewrite forallb_forall in Hmod. apply Hmod in Hin.
      destruct e; discriminate.
Qed.

Lemma liquidity_gate_witness :
  (let self := strategy 1 1 (25 # 100000) [] (rate_of 1) in
   exact (value (atr self) / average (spread_analyzer self)) == 2 /\
   on_bar exact Price_half_even FixedRiskSizer_calculate self
     "AUD/USD-1-MINUTE-BID" a_bar
   = LogInfo (ReceivedBar "AUD/USD-1-MINUTE-BID" a_bar) ::
     _check_signal exact Price_half_even FixedRiskSizer_calculate self a_bar
       (exact (value (atr self) * SL_atr_multiple self))
       (max (25 # 100000) (25 # 100000))
     ++ _check_trailing_stops exact Price_half_even self a_bar
          (exact (value (atr self) * SL_atr_multiple self))
          (max (25 # 100000) (25 # 100000)) /\
   2 <= exact (value (atr self) / average (spread_analyzer self)))
  /\
  (let self := strategy 1 1 (1 # 1000) [stop_leg] (rate_of 1) in
   on_bar exact Price_half_even FixedRiskSizer_calculate self
     "AUD/USD-1-MINUTE-BID" a_bar
   = LogInfo (ReceivedBar "AUD/USD-1-MINUTE-BID" a_bar) ::
     _check_trailing_stops exact Price_half_even self a_bar
       (exact (value (atr self) * SL_atr_multiple self))
       (max (1 # 1000) (1 # 1000))).
Proof.
  split.
  - intro self.
    destruct (liquidity_gate exact Price_half_even FixedRiskSizer_calculate self
                "AUD/USD-1-MINUTE-BID" a_bar)
      as (Hpass & _ & Honly).
    + reflexivity.
    + reflexivity.
    + vm_compute. discriminate.
    + split; [vm_compute; reflexivity |]. split.
      * apply Hpass. vm_compute. discriminate.
      * apply Honly. vm_compute. reflexivity.
  - intro self.
    destruct (liquidity_gate exact Price_half_even FixedRiskSizer_calculate self
                "AUD/USD-1-MINUTE-BID" a_bar)
      as (_ & Hbelow & _).
    + reflexivity.
    + reflexivity.
    + vm_compute. discriminate.
    + apply Hbelow. vm_compute. reflexivity.
Defined.

(** ** The exchange rate *)

(** C7 (as stated, refuted): at an exchange rate of -1.0, which is not
    greater than zero, the BUY entry calls the sizer. *)
Lemma negative_rate_reaches_sizer :
  let self := strategy 1 1 (1 # 10000) [] (rate_of (- (1))) in
  ~ (fst (lookup_exchange_rate self ASK) <= 0 ->
     existsb is_calculate
       (_enter_long exact Price_half_even FixedRiskSizer_calculate self a_bar
          (5 # 10000) (1 # 10000)) = false /\
     existsb is_submit
       (_enter_long exact Price_half_even FixedRiskSizer_calculate self a_bar
          (5 # 10000) (1 # 10000)) = false).
Proof.
  intros self H.
  assert (Hrate : fst (lookup_exchange_rate self ASK) <= 0)
    by (vm_compute; discriminate).
  destruct (H Hrate) as [Hcalc _]. vm_compute in Hcalc. discriminate.
Qed.

(** C7 (amended): when the exchange-rate lookup raises, or returns a rate
    equal to 0.0, the entry method neither calls the sizer nor submits a
    bracket: it only logs. *)
Theorem zero_rate_skips_entry (fl : Q -> Q) (Price : Q -> Z -> Q)
    (calculate : SizerArgs -> Z) (self : EMACross) (bar : Bar)
    (sl_buffer spread_buffer : Q) :
  (match get_exchange_rate_for_account self (quote_currency self) ASK with
   | Return r => r == 0
   | ValueError _ => True
   end ->
   existsb is_calculate
     (_enter_long fl Price calculate self bar sl_buffer spread_buffer)
     = false /\
   existsb is_submit
     (_enter_long fl Price calculate self bar sl_buffer spread_buffer) = false)
  /\
  (match get_exchange_rate_for_account self (quote_currency self) BID with
   | Return r => r == 0
   | ValueError _ => True
   end ->
   existsb is_calculate
     (_enter_short fl Price calculate self bar sl_buffer spread_buffer)
     = false /\
   existsb is_submit
     (_enter_short fl Price calculate self bar sl_buffer spread_buffer)
     = false).
Proof.
  split; intro H.
  - assert (Hlogs : forallb is_log
              (_enter_long fl Price calculate self bar sl_buffer spread_buffer)
              = true).
    { unfold _enter_long, lookup_exchange_rate.
      destruct (get_exchange_rate_for_account self (quote_currency self) ASK)
        as [r | msg]; [| reflexivity].
      apply Qeq_bool_iff in H. now rewrite H. }
    auto using only_logs_no_calculate, only_logs_no_submit.
  - assert (Hlogs : forallb is_log
              (_enter_short fl Price calculate self bar sl_buffer spread_buffer)
              = true).
    { unfold _enter_short, lookup_exchange_rate.
      destruct (get_exchange_rate_for_account self (quote_currency self) BID)
        as [r | msg]; [| reflexivity].
      apply Qeq_bool_iff in H. now rewrite H. }
    auto using only_logs_no_calculate, only_logs_no_submit.
Qed.

Lemma zero_rate_skips_entry_witness :
  (existsb is_calculate
     (_enter_long exact Price_half_even FixedRiskSizer_calculate
        (strategy 1 1 (1 # 10000) [] rate_unavailable) a_bar
        (5 # 10000) (1 # 10000)) = false /\
   existsb is_submit
     (_enter_long exact Price_half_even FixedRiskSizer_calculate
        (strategy 1 1 (1 # 10000) [] rate_unavailable) a_bar
        (5 # 10000) (1 # 10000)) = false)
  /\
  (existsb is_calculate
     (_enter_short exact Price_half_even FixedRiskSizer_calculate
        (strategy 1 2 (1 # 10000) [] (rate_of 0)) a_bar
        (5 # 10000) (1 # 10000)) = false /\
   existsb is_submit
     (_enter_short exact Price_half_even FixedRiskSizer_calculate
        (strategy 1 2 (1 # 10000) [] (rate_of 0)) a_bar
        (5 # 10000) (1 # 10000)) = false).
Proof.
  split.
  - apply (zero_rate_skips_entry exact Price_half_even FixedRiskSizer_calculate
             (strategy 1 1 (1 # 10000) [] rate_unavailable)).
    simpl. exact I.
  - apply (zero_rate_skips_entry exact Price_half_even FixedRiskSizer_calculate
             (strategy 1 2 (1 # 10000) [] (rate_of 0))).
    simpl. reflexivity.
Defined.

(** ** The warm-up gates *)

(** C8 (as stated, refuted): an average spread of -0.0001 is not strictly
    positive, yet the bar is processed: the working stop-loss is moved. *)
Lemma negative_spread_bar_processed :
  let self := strategy 1 2 (- (1 # 10000)) [stop_leg] (rate_of 1) in
  ~ (In false (registered_indicators self) \/
     has_quote_ticks self = false \/
     ~ 0 < average (spread_analyzer self) ->
     forallb is_log
       (on_bar exact Price_half_even FixedRiskSizer_calculate self
          "AUD/USD-1-MINUTE-BID" a_bar) = true).
Proof.
  intros self H.
  assert (Hspread : ~ 0 < average (spread_analyzer self))
    by (vm_compute; discriminate).
  specialize (H (or_intror (or_intror Hspread))).
  vm_compute in H. discriminate.
Qed.

(** C8 (amended): when a registered indicator is not ready, or no quote tick
    has been seen, or the average spread equals 0.0, [on_bar] does nothing
    but log: no sizing, no bracket, no order modification. *)
Theorem warm_up_gates_discard_bar (fl : Q -> Q) (Price : Q -> Z -> Q)
    (calculate : SizerArgs -> Z) (self : EMACross) (bt : string)
    (bar : Bar) :
  In false (registered_indicators self) \/
  has_quote_ticks self = false \/
  average (spread_analyzer self) == 0 ->
  forallb is_log (on_bar fl Price calculate self bt bar) = true.
Proof.
  intro H. apply on_bar_rejected.
  destruct H as [H | H]; [left; now apply not_ready_iff | now right].
Qed.

Lemma warm_up_gates_discard_bar_witness :
  forallb is_log
    (on_bar exact Price_half_even FixedRiskSizer_calculate
       (strategy 1 2 0 [stop_leg] (rate_of 1))
       "AUD/USD-1-MINUTE-BID" a_bar) = true.
Proof.
  apply warm_up_gates_discard_bar.
  right. right. simpl. reflexivity.
Defined.

(** C10: on a bar rejected by a warm-up gate (an indicator not ready, no
    quote tick seen, or an average spread equal to 0.0) the trailing stop
    sweep does not run: [on_bar] issues no order modification and the
    working orders are as they were. *)
Theorem rejected_bar_leaves_stops (fl : Q -> Q) (Price : Q -> Z -> Q)
    (calculate : SizerArgs -> Z) (self : EMACross) (bt : string)
    (bar : Bar) :
  In false (registered_indicators self) \/
  has_quote_ticks self = false \/
  average (spread_analyzer self) == 0 ->
  existsb is_modify (on_bar fl Price calculate self bt bar) = false /\
  apply_effects (orders_working self) (on_bar fl Price calculate self bt bar)
  = orders_working self.
Proof.
  intro H.
  assert (Hlogs : forallb is_log (on_bar fl Price calculate self bt bar)
                  = true).
  { apply on_bar_rejected.
    destruct H as [H | H]; [left; now apply not_ready_iff | now right]. }
  split.
  - now apply only_logs_no_modify.
  - now apply only_logs_apply.
Qed.

Lemma rejected_bar_leaves_stops_witness :
  let self :=
    mkEMACross "AUD/USD" "AUD/USD-1-MINUTE-BID" 5 10 (3 # 100000)
      (10 # 100000) 1 (mkSpreadAnalyzer (1 # 10000) (1 # 10000) true) "USD"
      (mkIndicator 1 true) (mkIndicator 2 false)
      (mkIndicator (5 # 10000) true)
      12 true [stop_leg] false ["O-1-SL"%string] 100000 (rate_of 1) in
  trail_order exact Price_half_even self a_bar (5 # 10000) (1 # 10000) stop_leg
    = [ModifyOrder stop_leg 50000 (2201 # 2000)] /\
  existsb is_modify
    (on_bar exact Price_half_even FixedRiskSizer_calculate self
       "AUD/USD-1-MINUTE-BID" a_bar) = false /\
  apply_effects (orders_working self)
    (on_bar exact Price_half_even FixedRiskSizer_calculate self
       "AUD/USD-1-MINUTE-BID" a_bar)
  = [stop_leg].
Proof.
  intro self. split; [vm_compute; reflexivity |].
  apply (rejected_bar_leaves_stops exact Price_half_even
    FixedRiskSizer_calculate
           self).
  left. simpl. auto.
Defined.

(** ** The entry order *)

(** C9: the entry leg of every bracket [on_bar] submits is the stop order
    built with time in force GTD and an expiry one minute (60,000,000
    microseconds) after the timestamp of the bar. *)
Theorem entry_order_expiry (fl : Q -> Q) (Price : Q -> Z -> Q)
    (calculate : SizerArgs -> Z) (self : EMACross) (bt : string)
    (bar : Bar) (b : BracketOrder) :
  In (SubmitBracketOrder b) (on_bar fl Price calculate self bt bar) ->
  time_in_force (entry_order b) = GTD /\
  expire_time (entry_order b) = (timestamp bar + timedelta_minutes 1)%Z /\
  (expire_time (entry_order b) - timestamp bar = 60 * 1000000)%Z.
Proof.
  intro Hin.
  apply on_bar_submitted in Hin as (sl_buffer & spread_buffer & [Hin | Hin]).
  - apply enter_long_submitted in Hin as [r ->]. simpl.
    unfold timedelta_minutes. repeat split. lia.
  - apply enter_short_submitted in Hin as [r ->]. simpl.
    unfold timedelta_minutes. repeat split. lia.
Qed.

Lemma entry_order_expiry_witness :
  time_in_force (entry_order long_bracket) = GTD /\
  expire_time (entry_order long_bracket)
  = (timestamp a_bar + timedelta_minutes 1)%Z /\
  (expire_time (entry_order long_bracket) - timestamp a_bar
   = 60 * 1000000)%Z.
Proof.
  apply (entry_order_expiry exact Price_half_even FixedRiskSizer_calculate
           (strategy 1 1 (1 # 10000) [] (rate_of 1))
           "AUD/USD-1-MINUTE-BID" a_bar long_bracket).
  vm_compute. right. right. left. reflexivity.
Defined.

(** ** Trailing *)

(** C3: every modification the sweep issues is for a working stop-loss leg,
    leaves its quantity, and either moves a sell stop to the candidate
    fl Price(bar.low - stop buffer), strictly above its current price, or moves
    a buy stop to the candidate fl Price(bar.high + stop buffer + spread
    buffer), strictly below its current price.  Hence, with the working
    orders keyed by their identifiers, from one bar to the next no leg
    changes side, a sell stop never goes down and a buy stop never goes
    up. *)
Theorem trailing_stop_only_tightens (fl : Q -> Q) (Price : Q -> Z -> Q)
    (self : EMACross) :
  (forall bar sl_buffer spread_buffer order q p,
     In (ModifyOrder order q p)
        (_check_trailing_stops fl Price self bar sl_buffer spread_buffer) ->
     In order (orders_working self) /\
     is_stop_loss self (cl_ord_id order) = true /\
     q = quantity order /\
     ((side order = SELL /\
       p = Price (fl (low bar - sl_buffer)) (precision self) /\
       price order < p) \/
      (side order = BUY /\
       p = Price (fl (fl (high bar + sl_buffer) + spread_buffer))
         (precision self) /\
       p < price order)))
  /\
  (NoDup (map cl_ord_id (orders_working self)) ->
   forall bars bar sl_buffer spread_buffer,
     Forall2 never_loosened (orders_working self)
       (swept_bars fl Price self bars) /\
     Forall2 never_loosened (swept_bars fl Price self bars)
       (swept_bars fl Price self (bars ++ [(bar, sl_buffer, spread_buffer)]))).
Proof.
  split.
  - intros bar sl_buffer spread_buffer order q p Hin.
    now apply trailing_loop_modifies in Hin.
  - intros Hnd bars bar sl_buffer spread_buffer.
    pose proof (swept_bars_never_loosens fl Price bars self Hnd) as Hsofar.
    split; [exact Hsofar |].
    rewrite swept_bars_snoc.
    apply (swept_never_loosens fl Price
             (with_orders_working self (swept_bars fl Price self bars))).
    simpl. now rewrite (Forall2_never_loosened_ids _ _ Hsofar).
Qed.

Lemma trailing_stop_only_tightens_witness :
  let self := strategy 1 2 (1 # 10000) [stop_leg; profit_leg] (rate_of 1) in
  let next := mkBar (11000 # 10000) (11005 # 10000) (10990 # 10000)
                (10995 # 10000) 1000000 1600000060000000%Z in
  price stop_leg < 2201 # 2000 /\
  swept_bars exact Price_half_even self [(a_bar, 5 # 10000, 1 # 10000)]
    = [mkOrder "O-1-SL" SELL 50000 (2201 # 2000); profit_leg] /\
  Forall2 never_loosened
    (swept_bars exact Price_half_even self [(a_bar, 5 # 10000, 1 # 10000)])
    (swept_bars exact Price_half_even self
       ([(a_bar, 5 # 10000, 1 # 10000)] ++ [(next, 5 # 10000, 1 # 10000)])).
Proof.
  intros self next.
  destruct (trailing_stop_only_tightens exact Price_half_even self)
    as [Honly Hmono].
  assert (Hnd : NoDup (map cl_ord_id (orders_working self))).
  { simpl. constructor.
    - intros [H | []]. discriminate.
    - constructor; [intros [] | constructor]. }
  split; [| split].
  - destruct (Honly a_bar (5 # 10000) (1 # 10000) stop_leg 50000%Z
                (2201 # 2000))
      as (_ & _ & _ & [(_ & _ & Hlt) | (Hside & _)]).
    + vm_compute. left. reflexivity.
    + exact Hlt.
    + discriminate.
  - vm_compute. reflexivity.
  - apply (Hmono Hnd).
Defined.

(** * Further properties of the strategy *)

(** ** The outcomes of an entry attempt *)

Section EntryOutcomes.

Variable fl : Q -> Q.
Variable Price : Q -> Z -> Q.
Variable calculate : SizerArgs -> Z.

(** An entry attempt ends in one of four ways, told apart by the exchange
    rate lookup and the sized quantity: the lookup raises (the error is
    logged, nothing else); the rate is 0.0 (nothing at all); the rate is
    usable and the size 0 (one sizer call, then a log entry); the rate is
    usable and the size not 0 (one sizer call, then one bracket, a BUY stop
    entry at the sized quantity with the prices given to the sizer). *)
Lemma enter_long_table (self : EMACross) (bar : Bar)
    (sl_buffer spread_buffer : Q) :
  let trace :=
    _enter_long fl Price calculate self bar sl_buffer spread_buffer in
  let rate := get_exchange_rate_for_account self (quote_currency self) ASK in
  let args := long_args fl Price self bar sl_buffer spread_buffer in
  (exists msg, rate = ValueError msg /\ trace = [LogError (Raised msg)])
  \/
  (exists r, rate = Return r /\ r == 0 /\ trace = [])
  \/
  (exists r, rate = Return r /\ ~ r == 0 /\ calculate (args r) = 0%Z /\
             trace = [Calculate (args r); LogInfo InsufficientEquityBuy])
  \/
  (exists r, rate = Return r /\ ~ r == 0 /\ calculate (args r) <> 0%Z /\
             trace =
               [Calculate (args r);
                SubmitBracketOrder
                  (mkBracketOrder
                     (mkStopOrder (symbol self) BUY (calculate (args r))
                        (entry (args r)) GTD
                        (timestamp bar + timedelta_minutes 1)%Z)
                     (sz_stop_loss (args r))
                     (Price
                        (fl (fl (entry (args r))
                            + fl (fl (entry (args r))
                                  - fl (sz_stop_loss (args r)))))
                        (precision self)))]).
Proof.
  unfold _enter_long, long_args, lookup_exchange_rate. simpl.
  destruct (get_exchange_rate_for_account self (quote_currency self) ASK)
    as [r | msg].
  - right. destruct (Qeq_bool r 0) eqn:Hr.
    + left. exists r. apply Qeq_bool_iff in Hr. auto.
    + right. apply Qeq_bool_neq in Hr. simpl.
      match goal with |- context [(?c =? 0)%Z] =>
        destruct (Z.eqb_spec c 0) as [Hz | Hz] end.
      * left. exists r. auto.
      * right. exists r. auto.
  - left. exists msg. auto.
Qed.

Lemma enter_short_table (self : EMACross) (bar : Bar)
    (sl_buffer spread_buffer : Q) :
  let trace :=
    _enter_short fl Price calculate self bar sl_buffer spread_buffer in
  let rate := get_exchange_rate_for_account self (quote_currency self) BID in
  let args := short_args fl Price self bar sl_buffer spread_buffer in
  (exists msg, rate = ValueError msg /\ trace = [LogError (Raised msg)])
  \/
  (exists r, rate = Return r /\ r == 0 /\ trace = [])
  \/
  (exists r, rate = Return r /\ ~ r == 0 /\ calculate (args r) = 0%Z /\
             trace = [Calculate (args r); LogInfo InsufficientEquitySell])
  \/
  (exists r, rate = Return r /\ ~ r == 0 /\ calculate (args r) <> 0%Z /\
             trace =
               [Calculate (args r);
                SubmitBracketOrder
                  (mkBracketOrder
                     (mkStopOrder (symbol self) SELL (calculate (args r))
                        (entry (args r)) GTD
                        (timestamp bar + timedelta_minutes 1)%Z)
                     (sz_stop_loss (args r))
                     (Price
                        (fl (fl (entry (args r))
                            - fl (fl (sz_stop_loss (args r))
                                  - fl (entry (args r)))))
                        (precision self)))]).
Proof.
  unfold _enter_short, short_args, lookup_exchange_rate. simpl.
  destruct (get_exchange_rate_for_account self (quote_currency self) BID)
    as [r | msg].
  - right. destruct (Qeq_bool r 0) eqn:Hr.
    + left. exists r. apply Qeq_bool_iff in Hr. auto.
    + right. apply Qeq_bool_neq in Hr. simpl.
      match goal with |- context [(?c =? 0)%Z] =>
        destruct (Z.eqb_spec c 0) as [Hz | Hz] end.
      * left. exists r. auto.
      * right. exists r. auto.
  - left. exists msg. auto.
Qed.

End EntryOutcomes.

(** X: an attempt to enter long ends in one of four ways, told apart by the
    exchange rate lookup (ASK side) and the sized quantity: the lookup
    raises (the error is logged, nothing else); the rate is 0.0 (nothing at
    all); the rate is usable and the size 0 (one sizer call, then the
    "insufficient equity" log entry); the rate is usable and the size not 0
    (one sizer call, then one bracket: a BUY stop entry at the sized
    quantity, with the prices given to the sizer). *)
Theorem enter_long_outcomes (fl : Q -> Q) (Price : Q -> Z -> Q)
    (calculate : SizerArgs -> Z) (self : EMACross) (bar : Bar)
    (sl_buffer spread_buffer : Q) :
  let trace :=
    _enter_long fl Price calculate self bar sl_buffer spread_buffer in
  let rate := get_exchange_rate_for_account self (quote_currency self) ASK in
  let args := long_args fl Price self bar sl_buffer spread_buffer in
  (exists msg, rate = ValueError msg /\ trace = [LogError (Raised msg)])
  \/
  (exists r, rate = Return r /\ r == 0 /\ trace = [])
  \/
  (exists r, rate = Return r /\ ~ r == 0 /\ calculate (args r) = 0%Z /\
             trace = [Calculate (args r); LogInfo InsufficientEquityBuy])
  \/
  (exists r, rate = Return r /\ ~ r == 0 /\ calculate (args r) <> 0%Z /\
             trace =
               [Calculate (args r);
                SubmitBracketOrder
                  (mkBracketOrder
                     (mkStopOrder (symbol self) BUY (calculate (args r))
                        (entry (args r)) GTD
                        (timestamp bar + timedelta_minutes 1)%Z)
                     (sz_stop_loss (args r))
                     (Price
                        (fl (fl (entry (args r))
                            + fl (fl (entry (args r))
                                  - fl (sz_stop_loss (args r)))))
                        (precision self)))]).
Proof.
  exact (enter_long_table fl Price calculate self bar sl_buffer
           spread_buffer).
Qed.

(** X: an attempt to enter short ends in one of four ways, told apart by
    the exchange rate lookup (BID side) and the sized quantity: the lookup
    raises (the error is logged, nothing else); the rate is 0.0 (nothing at
    all); the rate is usable and the size 0 (one sizer call, then the
    "insufficient equity" log entry); the rate is usable and the size not 0
    (one sizer call, then one bracket: a SELL stop entry at the sized
    quantity, with the prices given to the sizer). *)
Theorem enter_short_outcomes (fl : Q -> Q) (Price : Q -> Z -> Q)
    (calculate : SizerArgs -> Z) (self : EMACross) (bar : Bar)
    (sl_buffer spread_buffer : Q) :
  let trace :=
    _enter_short fl Price calculate self bar sl_buffer spread_buffer in
  let rate := get_exchange_rate_for_account self (quote_currency self) BID in
  let args := short_args fl Price self bar sl_buffer spread_buffer in
  (exists msg, rate = ValueError msg /\ trace = [LogError (Raised msg)])
  \/
  (exists r, rate = Return r /\ r == 0 /\ trace = [])
  \/
  (exists r, rate = Return r /\ ~ r == 0 /\ calculate (args r) = 0%Z /\
             trace = [Calculate (args r); LogInfo InsufficientEquitySell])
  \/
  (exists r, rate = Return r /\ ~ r == 0 /\ calculate (args r) <> 0%Z /\
             trace =
               [Calculate (args r);
                SubmitBracketOrder
                  (mkBracketOrder
                     (mkStopOrder (symbol self) SELL (calculate (args r))
                        (entry (args r)) GTD
                        (timestamp bar + timedelta_minutes 1)%Z)
                     (sz_stop_loss (args r))
                     (Price
                        (fl (fl (entry (args r))
                            - fl (fl (sz_stop_loss (args r))
                                  - fl (entry (args r)))))
                        (precision self)))]).
Proof.
  exact (enter_short_table fl Price calculate self bar sl_buffer
           spread_buffer).
Qed.

(** ** What one bar can bring about *)

Lemma only_logs_filter (f : Effect -> bool) (l : list Effect) :
  (forall e, is_log e = true -> f e = false) ->
  forallb is_log l = true -> filter f l = [].
Proof.
  intros Hf. induction l as [| e l IH]; simpl; [reflexivity |].
  intro H. apply andb_true_iff in H as [He Hl].
  now rewrite (Hf e He), (IH Hl).
Qed.

Lemma only_modifies_filter (f : Effect -> bool) (l : list Effect) :
  (forall e, is_modify e = true -> f e = false) ->
  forallb is_modify l = true -> filter f l = [].
Proof.
  intros Hf. induction l as [| e l IH]; simpl; [reflexivity |].
  intro H. apply andb_true_iff in H as [He Hl].
  now rewrite (Hf e He), (IH Hl).
Qed.

Section OneBar.

Variable fl : Q -> Q.
Variable Price : Q -> Z -> Q.
Variable calculate : SizerArgs -> Z.

Lemma enter_long_once self bar sl_buffer spread_buffer :
  (List.length (filter is_calculate
     (_enter_long fl Price calculate self bar sl_buffer spread_buffer)) <= 1
   /\
   List.length (filter is_submit
     (_enter_long fl Price calculate self bar sl_buffer spread_buffer))
   <= 1)%nat.
Proof.
  destruct (enter_long_table fl Price calculate self bar sl_buffer
              spread_buffer)
    as [(m & _ & ->) | [(r & _ & _ & ->) | [(r & _ & _ & _ & ->)
                                           | (r & _ & _ & _ & ->)]]];
    simpl; lia.
Qed.

Lemma enter_short_once self bar sl_buffer spread_buffer :
  (List.length (filter is_calculate
     (_enter_short fl Price calculate self bar sl_buffer spread_buffer)) <= 1
   /\
   List.length (filter is_submit
     (_enter_short fl Price calculate self bar sl_buffer spread_buffer))
   <= 1)%nat.
Proof.
  destruct (enter_short_table fl Price calculate self bar sl_buffer
              spread_buffer)
    as [(m & _ & ->) | [(r & _ & _ & ->) | [(r & _ & _ & _ & ->)
                                           | (r & _ & _ & _ & ->)]]];
    simpl; lia.
Qed.

(** The entry part of [_check_signal] runs only flat and with nothing
    working, and then on the side the two averages decide. *)
Lemma check_signal_entry self bar sl_buffer spread_buffer e :
  In e (_check_signal fl Price calculate self bar sl_buffer spread_buffer) ->
  orders_working self = [] /\ is_flat self = true /\
  ((value (slow_ema self) <= value (fast_ema self) /\
    In e (_enter_long fl Price calculate self bar sl_buffer spread_buffer))
   \/
   (value (fast_ema self) < value (slow_ema self) /\
    In e (_enter_short fl Price calculate self bar sl_buffer spread_buffer))).
Proof.
  unfold _check_signal, orders_working_count.
  destruct (orders_working self) as [| o l]; simpl; [| intros []].
  destruct (is_flat self); simpl; [| intros []].
  destruct (Qle_bool (value (slow_ema self)) (value (fast_ema self))) eqn:Hle.
  - apply Qle_bool_iff in Hle. auto.
  - destruct (Qlt_bool (value (fast_ema self)) (value (slow_ema self)))
      eqn:Hlt; [| intros []].
    apply Qlt_bool_iff in Hlt. auto.
Qed.

(** A sizer call or a bracket in the trace of [on_bar] comes from
    [_check_signal], run past every gate on the buffers of this bar. *)
Lemma on_bar_entry self bt bar e :
  is_entry_effect e = true ->
  In e (on_bar fl Price calculate self bt bar) ->
  indicators_initialized self = true /\
  has_quote_ticks self = true /\
  ~ average (spread_analyzer self) == 0 /\
  2 <= fl (value (atr self) / average (spread_analyzer self)) /\
  In e (_check_signal fl Price calculate self bar
          (fl (value (atr self) * SL_atr_multiple self))
          (max (average (spread_analyzer self))
             (current (spread_analyzer self)))).
Proof.
  intros He Hin.
  assert (Hnolog : is_log e = false)
    by (destruct e; unfold is_entry_effect in He; simpl in *; congruence).
  destruct (indicators_initialized self) eqn:Hready.
  2:{ apply (in_only_logs _ _
               (on_bar_rejected fl Price calculate self bt bar
                  (or_introl Hready))) in Hin. congruence. }
  destruct (has_quote_ticks self) eqn:Hticks.
  2:{ apply (in_only_logs _ _
               (on_bar_rejected fl Price calculate self bt bar
                  (or_intror (or_introl Hticks)))) in Hin. congruence. }
  destruct (Qeq_dec (average (spread_analyzer self)) 0) as [Hz | Hnz].
  { apply (in_only_logs _ _
             (on_bar_rejected fl Price calculate self bt bar
                (or_intror (or_intror Hz)))) in Hin. congruence. }
  rewrite (on_bar_accepted fl Price calculate self bt bar Hready Hticks Hnz)
    in Hin.
  destruct Hin as [Hin | Hin]; [subst e; discriminate |].
  apply in_app_or in Hin as [Hin | Hin].
  - destruct (Qle_bool 2 _) eqn:Hratio; [| destruct Hin].
    apply Qle_bool_iff in Hratio. auto.
  - unfold _check_trailing_stops in Hin.
    pose proof (trailing_loop_only_modifies fl Price self bar
                  (fl (value (atr self) * SL_atr_multiple self))
                  (max (average (spread_analyzer self))
                     (current (spread_analyzer self)))
                  (orders_working self)) as Hmod.
    rewrite forallb_forall in Hmod. apply Hmod in Hin.
    destruct e; discriminate.
Qed.

End OneBar.

Section BarEntries.

Variable fl : Q -> Q.
Variable Price : Q -> Z -> Q.
Variable calculate : SizerArgs -> Z.

Lemma check_signal_long self bar sl_buffer spread_buffer :
  orders_working self = [] -> is_flat self = true ->
  value (slow_ema self) <= value (fast_ema self) ->
  _check_signal fl Price calculate self bar sl_buffer spread_buffer
  = _enter_long fl Price calculate self bar sl_buffer spread_buffer.
Proof.
  intros Hnone Hflat Hle. unfold _check_signal, orders_working_count.
  rewrite Hnone, Hflat. simpl. apply Qle_bool_iff in Hle. now rewrite Hle.
Qed.

Lemma check_signal_short self bar sl_buffer spread_buffer :
  orders_working self = [] -> is_flat self = true ->
  value (fast_ema self) < value (slow_ema self) ->
  _check_signal fl Price calculate self bar sl_buffer spread_buffer
  = _enter_short fl Price calculate self bar sl_buffer spread_buffer.
Proof.
  intros Hnone Hflat Hlt. unfold _check_signal, orders_working_count.
  rewrite Hnone, Hflat. simpl.
  destruct (Qle_bool (value (slow_ema self)) (value (fast_ema self))) eqn:E.
  - apply Qle_bool_iff in E. exfalso. exact (Qlt_not_le _ _ Hlt E).
  - apply Qlt_bool_iff in Hlt. now rewrite Hlt.
Qed.

(** Past every gate, flat and with nothing working, [on_bar] is the log line
    followed by [_check_signal]: there is nothing to sweep. *)
Lemma on_bar_flat self bt bar :
  indicators_initialized self = true ->
  has_quote_ticks self = true ->
  ~ average (spread_analyzer self) == 0 ->
  2 <= fl (value (atr self) / average (spread_analyzer self)) ->
  orders_working self = [] ->
  on_bar fl Price calculate self bt bar
  = LogInfo (ReceivedBar bt bar) ::
    _check_signal fl Price calculate self bar
      (fl (value (atr self) * SL_atr_multiple self))
      (max (average (spread_analyzer self)) (current (spread_analyzer self))).
Proof.
  intros Hready Hticks Hnz Hratio Hnone.
  rewrite (on_bar_accepted fl Price calculate self bt bar Hready Hticks Hnz).
  apply Qle_bool_iff in Hratio. rewrite Hratio.
  unfold _check_trailing_stops. rewrite Hnone. simpl.
  now rewrite app_nil_r.
Qed.

End BarEntries.

(** X: on one bar the sizer is called at most once and at most one bracket
    is submitted. *)
Theorem on_bar_at_most_one_entry (fl : Q -> Q) (Price : Q -> Z -> Q)
    (calculate : SizerArgs -> Z) (self : EMACross) (bt : string)
    (bar : Bar) :
  (List.length (filter is_calculate (on_bar fl Price calculate self bt bar))
   <= 1)%nat /\
  (List.length (filter is_submit (on_bar fl Price calculate self bt bar))
   <= 1)%nat.
Proof.
  assert (Hlogc : forall e, is_log e = true -> is_calculate e = false)
    by (intros []; simpl; congruence).
  assert (Hlogs : forall e, is_log e = true -> is_submit e = false)
    by (intros []; simpl; congruence).
  assert (Hmodc : forall e, is_modify e = true -> is_calculate e = false)
    by (intros []; simpl; congruence).
  assert (Hmods : forall e, is_modify e = true -> is_submit e = false)
    by (intros []; simpl; congruence).
  destruct (indicators_initialized self) eqn:Hready.
  2:{ pose proof (on_bar_rejected fl Price calculate self bt bar
                    (or_introl Hready)) as H.
      rewrite (only_logs_filter _ _ Hlogc H), (only_logs_filter _ _ Hlogs H).
      simpl. lia. }
  destruct (has_quote_ticks self) eqn:Hticks.
  2:{ pose proof (on_bar_rejected fl Price calculate self bt bar
                    (or_intror (or_introl Hticks))) as H.
      rewrite (only_logs_filter _ _ Hlogc H), (only_logs_filter _ _ Hlogs H).
      simpl. lia. }
  destruct (Qeq_dec (average (spread_analyzer self)) 0) as [Hz | Hnz].
  { pose proof (on_bar_rejected fl Price calculate self bt bar
                  (or_intror (or_intror Hz))) as H.
    rewrite (only_logs_filter _ _ Hlogc H), (only_logs_filter _ _ Hlogs H).
    simpl. lia. }
  rewrite (on_bar_accepted fl Price calculate self bt bar Hready Hticks Hnz).
  simpl. rewrite !filter_app.
  unfold _check_trailing_stops.
  rewrite (only_modifies_filter _ _ Hmodc
             (trailing_loop_only_modifies fl Price self bar _ _ _)),
          (only_modifies_filter _ _ Hmods
             (trailing_loop_only_modifies fl Price self bar _ _ _)),
          !app_nil_r.
  destruct (Qle_bool 2 _); [| simpl; lia].
  destruct (check_signal_cases fl Price calculate self bar
              (fl (value (atr self) * SL_atr_multiple self))
              (max (average (spread_analyzer self))
                 (current (spread_analyzer self))))
    as [H | [H | H]]; rewrite H.
  - simpl. lia.
  - apply enter_long_once.
  - apply enter_short_once.
Qed.

(** X: a bar on which the sizer is called or a bracket is submitted is a bar
    with no working orders, and no order is modified on it: entering and
    trailing never happen on the same bar. *)
Theorem on_bar_entry_excludes_trailing (fl : Q -> Q) (Price : Q -> Z -> Q)
    (calculate : SizerArgs -> Z) (self : EMACross) (bt : string)
    (bar : Bar) :
  existsb is_entry_effect (on_bar fl Price calculate self bt bar) = true ->
  orders_working self = [] /\ is_flat self = true /\
  existsb is_modify (on_bar fl Price calculate self bt bar) = false.
Proof.
  intro Hex. apply existsb_exists in Hex as (e & Hin & He).
  destruct (on_bar_entry fl Price calculate self bt bar e He Hin)
    as (Hready & Hticks & Hnz & Hratio & Hsig).
  destruct (check_signal_entry fl Price calculate self bar _ _ e Hsig)
    as (Hnone & Hflat & _).
  repeat split; auto.
  rewrite (on_bar_accepted fl Price calculate self bt bar Hready Hticks Hnz).
  simpl. rewrite existsb_app. unfold _check_trailing_stops.
  rewrite Hnone. simpl. rewrite orb_false_r.
  destruct (Qle_bool 2 _); [| reflexivity].
  destruct (existsb is_modify _) eqn:Hmod; [| reflexivity].
  apply existsb_exists in Hmod as (m & Hm & Hism).
  apply check_signal_entry in Hm as (_ & _ & [[_ Hm] | [_ Hm]]).
  - destruct (enter_long_table fl Price calculate self bar
                (fl (value (atr self) * SL_atr_multiple self))
                (max (average (spread_analyzer self))
                   (current (spread_analyzer self))))
      as [(x & _ & Ht) | [(x & _ & _ & Ht) | [(x & _ & _ & _ & Ht)
                                             | (x & _ & _ & _ & Ht)]]];
      rewrite Ht in Hm; simpl in Hm;
      repeat (destruct Hm as [Hm | Hm]; [subst m; discriminate |]);
      destruct Hm.
  - destruct (enter_short_table fl Price calculate self bar
                (fl (value (atr self) * SL_atr_multiple self))
                (max (average (spread_analyzer self))
                   (current (spread_analyzer self))))
      as [(x & _ & Ht) | [(x & _ & _ & Ht) | [(x & _ & _ & _ & Ht)
                                             | (x & _ & _ & _ & Ht)]]];
      rewrite Ht in Hm; simpl in Hm;
      repeat (destruct Hm as [Hm | Hm]; [subst m; discriminate |]);
      destruct Hm.
Qed.

Lemma on_bar_entry_excludes_trailing_witness :
  existsb is_modify
    (on_bar exact Price_half_even FixedRiskSizer_calculate
       (strategy 1 1 (1 # 10000) [] (rate_of 1))
       "AUD/USD-1-MINUTE-BID" a_bar) = false.
Proof.
  apply (on_bar_entry_excludes_trailing exact Price_half_even
           FixedRiskSizer_calculate
           (strategy 1 1 (1 # 10000) [] (rate_of 1))).
  vm_compute. reflexivity.
Defined.

Section Submissions.

Variable fl : Q -> Q.
Variable Price : Q -> Z -> Q.
Variable calculate : SizerArgs -> Z.

Lemma enter_long_submit_inv self bar sl_buffer spread_buffer b :
  In (SubmitBracketOrder b)
     (_enter_long fl Price calculate self bar sl_buffer spread_buffer) ->
  exists r,
    get_exchange_rate_for_account self (quote_currency self) ASK = Return r /\
    ~ r == 0 /\
    calculate (long_args fl Price self bar sl_buffer spread_buffer r) <> 0%Z /\
    _enter_long fl Price calculate self bar sl_buffer spread_buffer
    = [Calculate (long_args fl Price self bar sl_buffer spread_buffer r);
       SubmitBracketOrder b] /\
    order_side (entry_order b) = BUY /\
    so_symbol (entry_order b) = symbol self /\
    so_quantity (entry_order b)
    = calculate (long_args fl Price self bar sl_buffer spread_buffer r) /\
    so_price (entry_order b)
    = Price (fl (fl (high bar + entry_buffer self) + spread_buffer))
      (precision self) /\
    stop_loss b = Price (fl (low bar - sl_buffer)) (precision self).
Proof.
  intro Hin.
  destruct (enter_long_table fl Price calculate self bar sl_buffer
              spread_buffer)
    as [(x & _ & Ht) | [(x & _ & _ & Ht) | [(x & _ & _ & _ & Ht)
                                           | (r & Hr & Hnz & Hc & Ht)]]];
    rewrite Ht in Hin; simpl in Hin.
  - destruct Hin as [Hin | []]. discriminate.
  - destruct Hin.
  - destruct Hin as [Hin | [Hin | []]]; discriminate.
  - destruct Hin as [Hin | [Hin | []]]; [discriminate |].
    exists r. rewrite Ht. inversion Hin; subst b. simpl.
    repeat split; auto.
Qed.

Lemma enter_short_submit_inv self bar sl_buffer spread_buffer b :
  In (SubmitBracketOrder b)
     (_enter_short fl Price calculate self bar sl_buffer spread_buffer) ->
  exists r,
    get_exchange_rate_for_account self (quote_currency self) BID = Return r /\
    ~ r == 0 /\
    calculate (short_args fl Price self bar sl_buffer spread_buffer r) <> 0%Z /\
    _enter_short fl Price calculate self bar sl_buffer spread_buffer
    = [Calculate (short_args fl Price self bar sl_buffer spread_buffer r);
       SubmitBracketOrder b] /\
    order_side (entry_order b) = SELL /\
    so_symbol (entry_order b) = symbol self /\
    so_quantity (entry_order b)
    = calculate (short_args fl Price self bar sl_buffer spread_buffer r) /\
    so_price (entry_order b)
    = Price (fl (low bar - entry_buffer self)) (precision self) /\
    stop_loss b
    = Price (fl (fl (high bar + sl_buffer) + spread_buffer)) (precision self).
Proof.
  intro Hin.
  destruct (enter_short_table fl Price calculate self bar sl_buffer
              spread_buffer)
    as [(x & _ & Ht) | [(x & _ & _ & Ht) | [(x & _ & _ & _ & Ht)
                                           | (r & Hr & Hnz & Hc & Ht)]]];
    rewrite Ht in Hin; simpl in Hin.
  - destruct Hin as [Hin | []]. discriminate.
  - destruct Hin.
  - destruct Hin as [Hin | [Hin | []]]; discriminate.
  - destruct Hin as [Hin | [Hin | []]]; [discriminate |].
    exists r. rewrite Ht. inversion Hin; subst b. simpl.
    repeat split; auto.
Qed.

End Submissions.

(** X: [on_bar] submits a bracket only past every gate: all indicators ready,
    a quote tick seen, the average spread not 0.0, ATR / average spread at
    least 2.0, no order working and the position flat.  The bracket is a BUY
    when the fast EMA is at or above the slow one and a SELL when it is
    below, and it is priced from this bar with the stop buffer ATR x
    [SL_atr_multiple] and the spread buffer max(average, current spread),
    the sums and the product being float operations.  With an ATR that is
    not negative, and float rounding that keeps the order and leaves 0.0 as
    it is, the average spread is then strictly positive. *)
Theorem on_bar_submits_only_past_gates (fl : Q -> Q) (Price : Q -> Z -> Q)
    (calculate : SizerArgs -> Z) (self : EMACross) (bt : string)
    (bar : Bar) (b : BracketOrder) :
  In (SubmitBracketOrder b) (on_bar fl Price calculate self bt bar) ->
  let sl_buffer := fl (value (atr self) * SL_atr_multiple self) in
  let spread_buffer :=
    max (average (spread_analyzer self)) (current (spread_analyzer self)) in
  indicators_initialized self = true /\
  has_quote_ticks self = true /\
  ~ average (spread_analyzer self) == 0 /\
  2 <= fl (value (atr self) / average (spread_analyzer self)) /\
  orders_working self = [] /\
  is_flat self = true /\
  ((forall x y, x <= y -> fl x <= fl y) -> fl 0 == 0 ->
   0 <= value (atr self) -> 0 < average (spread_analyzer self)) /\
  ((value (slow_ema self) <= value (fast_ema self) /\
    order_side (entry_order b) = BUY /\
    so_price (entry_order b)
    = Price (fl (fl (high bar + entry_buffer self) + spread_buffer))
        (precision self) /\
    stop_loss b = Price (fl (low bar - sl_buffer)) (precision self))
   \/
   (value (fast_ema self) < value (slow_ema self) /\
    order_side (entry_order b) = SELL /\
    so_price (entry_order b)
    = Price (fl (low bar - entry_buffer self)) (precision self) /\
    stop_loss b
    = Price (fl (fl (high bar + sl_buffer) + spread_buffer))
        (precision self))).
Proof.
  intros Hin sl_buffer spread_buffer.
  destruct (on_bar_entry fl Price calculate self bt bar
              (SubmitBracketOrder b) eq_refl Hin)
    as (Hready & Hticks & Hnz & Hratio & Hsig).
  destruct (check_signal_entry fl Price calculate self bar _ _ _ Hsig)
    as (Hnone & Hflat & Hside).
  repeat (split; [assumption |]). split.
  - intros Hmono Hzero Hatr.
    destruct (Qlt_le_dec 0 (average (spread_analyzer self)))
      as [Hpos | Hneg]; [exact Hpos | exfalso].
    assert (Hlt : average (spread_analyzer self) < 0).
    { apply Qle_lteq in Hneg as [Hlt | Heq]; [exact Hlt | contradiction]. }
    assert (Hinv : / average (spread_analyzer self) <= 0).
    { apply Qlt_le_weak.
      setoid_replace (/ average (spread_analyzer self))
        with (- / (- average (spread_analyzer self))).
      - assert (H : 0 < / - average (spread_analyzer self)).
        { apply Qinv_lt_0_compat. lra. }
        lra.
      - field. intro H. apply Hnz. exact H. }
    assert (Hprod : value (atr self) / average (spread_analyzer self) <= 0).
    { unfold Qdiv.
      setoid_replace 0 with (value (atr self) * 0) by ring.
      setoid_replace (value (atr self) * / average (spread_analyzer self))
        with (/ average (spread_analyzer self) * value (atr self)) by ring.
      setoid_replace (value (atr self) * 0)
        with (0 * value (atr self)) by ring.
      apply Qmult_le_compat_r; assumption. }
    apply Hmono in Hprod. rewrite Hzero in Hprod.
    apply (Qlt_not_le 0 2); [reflexivity |].
    now apply Qle_trans
      with (fl (value (atr self) / average (spread_analyzer self))).
  - destruct Hside as [[Hle Hlong] | [Hlt Hshort]].
    + left. apply enter_long_submit_inv in Hlong
        as (r & _ & _ & _ & _ & Hs & _ & _ & Hp & Hsl). auto.
    + right. apply enter_short_submit_inv in Hshort
        as (r & _ & _ & _ & _ & Hs & _ & _ & Hp & Hsl). auto.
Qed.

Lemma on_bar_submits_only_past_gates_witness :
  let self := strategy 1 1 (1 # 10000) [] (rate_of 1) in
  0 < average (spread_analyzer self) /\
  2 <= exact (value (atr self) / average (spread_analyzer self)) /\
  orders_working self = [].
Proof.
  intro self.
  destruct (on_bar_submits_only_past_gates exact Price_half_even
              FixedRiskSizer_calculate self "AUD/USD-1-MINUTE-BID" a_bar
              long_bracket)
    as (_ & _ & _ & Hratio & Hnone & _ & Hpos & _).
  - vm_compute. right. right. left. reflexivity.
  - split; [| split; assumption].
    apply Hpos.
    + intros x y H. exact H.
    + reflexivity.
    + vm_compute. discriminate.
Defined.

(** X: a bar that submits a bracket does three things and no more: it logs
    the bar, calls the sizer once and submits that one bracket.  The sizer is
    asked about the entry and stop-loss prices the bracket carries, with the
    free equity, the risk of the strategy and the exchange rate looked up on
    the ASK side for a BUY and on the BID side for a SELL; the rate is not
    0.0, and the quantity of the entry order is the sizer's answer, which is
    not 0. *)
Theorem on_bar_submission_trace (fl : Q -> Q) (Price : Q -> Z -> Q)
    (calculate : SizerArgs -> Z) (self : EMACross) (bt : string)
    (bar : Bar) (b : BracketOrder) :
  In (SubmitBracketOrder b) (on_bar fl Price calculate self bt bar) ->
  exists args,
    on_bar fl Price calculate self bt bar
    = [LogInfo (ReceivedBar bt bar); Calculate args; SubmitBracketOrder b] /\
    entry args = so_price (entry_order b) /\
    sz_stop_loss args = stop_loss b /\
    equity args = free_equity self /\
    sz_risk_bp args = risk_bp self /\
    get_exchange_rate_for_account self (quote_currency self)
      (match order_side (entry_order b) with BUY => ASK | _ => BID end)
    = Return (exchange_rate args) /\
    ~ exchange_rate args == 0 /\
    so_quantity (entry_order b) = calculate args /\
    so_quantity (entry_order b) <> 0%Z.
Proof.
  intro Hin.
  destruct (on_bar_entry fl Price calculate self bt bar
              (SubmitBracketOrder b) eq_refl Hin)
    as (Hready & Hticks & Hnz & Hratio & Hsig).
  destruct (check_signal_entry fl Price calculate self bar _ _ _ Hsig)
    as (Hnone & Hflat & Hside).
  rewrite (on_bar_flat fl Price calculate self bt bar Hready Hticks Hnz Hratio
             Hnone).
  destruct Hside as [[Hle Hlong] | [Hlt Hshort]].
  - rewrite (check_signal_long fl Price calculate self bar _ _ Hnone Hflat Hle).
    apply enter_long_submit_inv in Hlong
      as (r & Hr & Hrnz & Hc & Ht & Hs & _ & Hq & Hp & Hsl).
    eexists. rewrite Ht. split; [reflexivity |].
    rewrite Hs, Hq, Hp, Hsl. simpl. repeat split; auto.
  - rewrite (check_signal_short fl Price calculate self bar _ _ Hnone Hflat
               Hlt).
    apply enter_short_submit_inv in Hshort
      as (r & Hr & Hrnz & Hc & Ht & Hs & _ & Hq & Hp & Hsl).
    eexists. rewrite Ht. split; [reflexivity |].
    rewrite Hs, Hq, Hp, Hsl. simpl. repeat split; auto.
Qed.

Lemma on_bar_submission_trace_witness :
  exists args,
    on_bar exact Price_half_even FixedRiskSizer_calculate
      (strategy 1 2 (1 # 10000) [] (rate_of 1)) "AUD/USD-1-MINUTE-BID" a_bar
    = [LogInfo (ReceivedBar "AUD/USD-1-MINUTE-BID" a_bar); Calculate args;
       SubmitBracketOrder short_bracket] /\
    entry args = 110097 # 100000 /\
    FixedRiskSizer_calculate args = 60000%Z.
Proof.
  destruct (on_bar_submission_trace exact Price_half_even
    FixedRiskSizer_calculate
              (strategy 1 2 (1 # 10000) [] (rate_of 1))
              "AUD/USD-1-MINUTE-BID" a_bar short_bracket)
    as (args & Ht & He & _ & _ & _ & _ & _ & Hq & _).
  - vm_compute. right. right. left. reflexivity.
  - exists args. split; [exact Ht |]. split; [exact He |].
    symmetry. exact Hq.
Defined.

(** X: past every gate, flat and with no order working, [on_bar] does submit:
    with the fast EMA at or above the slow one, a usable ASK rate and a
    sized quantity other than 0 it submits a BUY bracket; with the fast EMA
    below the slow one, a usable BID rate and a sized quantity other than 0
    it submits a SELL bracket. *)
Theorem on_bar_submits_past_gates (fl : Q -> Q) (Price : Q -> Z -> Q)
    (calculate : SizerArgs -> Z) (self : EMACross) (bt : string)
    (bar : Bar) (r : Q) :
  indicators_initialized self = true ->
  has_quote_ticks self = true ->
  ~ average (spread_analyzer self) == 0 ->
  2 <= fl (value (atr self) / average (spread_analyzer self)) ->
  orders_working self = [] ->
  is_flat self = true ->
  ~ r == 0 ->
  let sl_buffer := fl (value (atr self) * SL_atr_multiple self) in
  let spread_buffer :=
    max (average (spread_analyzer self)) (current (spread_analyzer self)) in
  (value (slow_ema self) <= value (fast_ema self) ->
   get_exchange_rate_for_account self (quote_currency self) ASK = Return r ->
   calculate (long_args fl Price self bar sl_buffer spread_buffer r) <> 0%Z ->
   exists b,
     on_bar fl Price calculate self bt bar
     = [LogInfo (ReceivedBar bt bar);
        Calculate (long_args fl Price self bar sl_buffer spread_buffer r);
        SubmitBracketOrder b] /\
     order_side (entry_order b) = BUY)
  /\
  (value (fast_ema self) < value (slow_ema self) ->
   get_exchange_rate_for_account self (quote_currency self) BID = Return r ->
   calculate (short_args fl Price self bar sl_buffer spread_buffer r) <> 0%Z ->
   exists b,
     on_bar fl Price calculate self bt bar
     = [LogInfo (ReceivedBar bt bar);
        Calculate (short_args fl Price self bar sl_buffer spread_buffer r);
        SubmitBracketOrder b] /\
     order_side (entry_order b) = SELL).
Proof.
  intros Hready Hticks Hnz Hratio Hnone Hflat Hr sl_buffer spread_buffer.
  rewrite (on_bar_flat fl Price calculate self bt bar Hready Hticks Hnz Hratio
             Hnone).
  fold sl_buffer spread_buffer.
  split.
  - intros Hle Hrate Hsize.
    rewrite (check_signal_long fl Price calculate self bar _ _ Hnone Hflat Hle).
    destruct (enter_long_table fl Price calculate self bar sl_buffer
                spread_buffer)
      as [(x & Hx & _) | [(x & Hx & Hz & _) | [(x & Hx & _ & Hc & _)
                                              | (x & Hx & _ & _ & Ht)]]];
      rewrite Hrate in Hx; inversion Hx; subst x; try contradiction.
    rewrite Ht. eexists. split; reflexivity.
  - intros Hlt Hrate Hsize.
    rewrite (check_signal_short fl Price calculate self bar _ _ Hnone Hflat
      Hlt).
    destruct (enter_short_table fl Price calculate self bar sl_buffer
                spread_buffer)
      as [(x & Hx & _) | [(x & Hx & Hz & _) | [(x & Hx & _ & Hc & _)
                                              | (x & Hx & _ & _ & Ht)]]];
      rewrite Hrate in Hx; inversion Hx; subst x; try contradiction.
    rewrite Ht. eexists. split; reflexivity.
Qed.

Lemma on_bar_submits_past_gates_witness :
  (exists b,
     on_bar exact Price_half_even FixedRiskSizer_calculate
       (strategy 1 1 (1 # 10000) [] (rate_of 1)) "AUD/USD-1-MINUTE-BID" a_bar
     = [LogInfo (ReceivedBar "AUD/USD-1-MINUTE-BID" a_bar);
        Calculate
          (long_args exact Price_half_even
             (strategy 1 1 (1 # 10000) [] (rate_of 1)) a_bar
             ((5 # 10000) * 1) (max (1 # 10000) (1 # 10000)) 1);
        SubmitBracketOrder b] /\
     order_side (entry_order b) = BUY)
  /\
  (exists b,
     on_bar exact Price_half_even FixedRiskSizer_calculate
       (strategy 1 2 (1 # 10000) [] (rate_of 1)) "AUD/USD-1-MINUTE-BID" a_bar
     = [LogInfo (ReceivedBar "AUD/USD-1-MINUTE-BID" a_bar);
        Calculate
          (short_args exact Price_half_even
             (strategy 1 2 (1 # 10000) [] (rate_of 1)) a_bar
             ((5 # 10000) * 1) (max (1 # 10000) (1 # 10000)) 1);
        SubmitBracketOrder b] /\
     order_side (entry_order b) = SELL).
Proof.
  split.
  - apply (on_bar_submits_past_gates exact Price_half_even
             FixedRiskSizer_calculate
             (strategy 1 1 (1 # 10000) [] (rate_of 1))
             "AUD/USD-1-MINUTE-BID" a_bar 1);
      try reflexivity; vm_compute; discriminate.
  - apply (on_bar_submits_past_gates exact Price_half_even
             FixedRiskSizer_calculate
             (strategy 1 2 (1 # 10000) [] (rate_of 1))
             "AUD/USD-1-MINUTE-BID" a_bar 1);
      try reflexivity; vm_compute; discriminate.
Defined.

(** ** Rounding keeps the order of prices *)

Lemma Price_half_even_units (v : Q) (precision : Z) :
  Price_half_even v precision
  = Qred (inject_Z (half_even_units v precision) / Qpower 10 precision).
Proof. reflexivity. Qed.






(** ** The net effect of the trailing stop sweep *)

Lemma Qlt_bool_irrefl (x : Q) : Qlt_bool x x = false.
Proof.
  unfold Qlt_bool. apply negb_false_iff, Qle_bool_iff, Qle_refl.
Qed.

Lemma modified_elsewhere (target : Order) (q : Z) (p : Q) (l : list Order) :
  ~ In (cl_ord_id target) (map cl_ord_id l) ->
  map (modified target q p) l = l.
Proof.
  induction l as [| o l IH]; simpl; [reflexivity |].
  intro Hnot. unfold modified at 1.
  destruct (String.eqb (cl_ord_id o) (cl_ord_id target)) eqn:E.
  - apply String.eqb_eq in E. exfalso. apply Hnot. now left.
  - rewrite IH; [reflexivity |]. intro H. apply Hnot. now right.
Qed.

Section NetEffect.

Variable fl : Q -> Q.
Variable Price : Q -> Z -> Q.

Lemma trailed_cases self bar sl_buffer spread_buffer o :
  (trail_order fl Price self bar sl_buffer spread_buffer o = [] /\
   trailed fl Price self bar sl_buffer spread_buffer o = o)
  \/
  exists p,
    trail_order fl Price self bar sl_buffer spread_buffer o
    = [ModifyOrder o (quantity o) p] /\
    trailed fl Price self bar sl_buffer spread_buffer o
    = mkOrder (cl_ord_id o) (side o) (quantity o) p /\
    ((side o = SELL /\ p = Price (fl (low bar - sl_buffer)) (precision self)
      /\ price o < p) \/
     (side o = BUY
      /\ p = Price (fl (fl (high bar + sl_buffer) + spread_buffer))
        (precision self)
      /\ p < price o)).
Proof.
  unfold trailed.
  destruct (trail_order_cases fl Price self bar sl_buffer spread_buffer o)
    as [Hnil | (p & Heq & Hcases)].
  - left. now rewrite Hnil.
  - right. exists p. now rewrite Heq.
Qed.

Lemma trailed_cl_ord_id self bar sl_buffer spread_buffer o :
  cl_ord_id (trailed fl Price self bar sl_buffer spread_buffer o) = cl_ord_id o.
Proof.
  destruct (trailed_cases self bar sl_buffer spread_buffer o)
    as [[_ ->] | (p & _ & -> & _)]; reflexivity.
Qed.

(** A leg that has been trailed on a bar is not trailed again on it. *)
Lemma trail_order_trailed self bar sl_buffer spread_buffer o :
  trail_order fl Price self bar sl_buffer spread_buffer
    (trailed fl Price self bar sl_buffer spread_buffer o) = [].
Proof.
  destruct (trailed_cases self bar sl_buffer spread_buffer o)
    as [[Hnil ->] | (p & _ & -> & Hcases)]; [exact Hnil |].
  unfold trail_order, is_sell, is_buy, gt, lt. simpl.
  destruct Hcases as [(Hs & -> & _) | (Hs & -> & _)]; rewrite Hs;
    now rewrite Qlt_bool_irrefl.
Qed.

Lemma trailed_in_place_ids self bar sl_buffer spread_buffer l :
  map cl_ord_id (trailed_in_place fl Price self bar sl_buffer spread_buffer l)
  = map cl_ord_id l.
Proof.
  induction l as [| o l IH]; simpl; [reflexivity |].
  destruct (is_stop_loss self (cl_ord_id o)); simpl; [| reflexivity].
  now rewrite trailed_cl_ord_id, IH.
Qed.

Lemma apply_trail_order self bar sl_buffer spread_buffer pre o rest :
  NoDup (map cl_ord_id (pre ++ o :: rest)) ->
  apply_effects (pre ++ o :: rest)
    (trail_order fl Price self bar sl_buffer spread_buffer o)
  = pre ++ trailed fl Price self bar sl_buffer spread_buffer o :: rest.
Proof.
  intro Hnd.
  destruct (trailed_cases self bar sl_buffer spread_buffer o)
    as [[-> ->] | (p & -> & -> & _)]; [reflexivity |].
  unfold apply_effects. simpl. rewrite map_app. simpl.
  rewrite map_app in Hnd. simpl in Hnd.
  pose proof (NoDup_remove_2 _ _ _ Hnd) as Hnot.
  rewrite !modified_elsewhere.
  - unfold modified. now rewrite String.eqb_refl.
  - intro H. apply Hnot. apply in_or_app. now right.
  - intro H. apply Hnot. apply in_or_app. now left.
Qed.

Lemma swept_in_place self bar sl_buffer spread_buffer rest : forall pre,
  NoDup (map cl_ord_id (pre ++ rest)) ->
  apply_effects (pre ++ rest)
    (trailing_loop fl Price self bar sl_buffer spread_buffer rest)
  = pre ++ trailed_in_place fl Price self bar sl_buffer spread_buffer rest.
Proof.
  induction rest as [| o rest IH]; intros pre Hnd; [reflexivity |].
  simpl. destruct (is_stop_loss self (cl_ord_id o)); simpl; [| reflexivity].
  rewrite apply_effects_app, (apply_trail_order _ _ _ _ _ _ _ Hnd).
  change (pre ++ trailed fl Price self bar sl_buffer spread_buffer o :: rest)
    with (pre ++ [trailed fl Price self bar sl_buffer spread_buffer o] ++ rest).
  rewrite app_assoc, IH; [now rewrite <- app_assoc |].
  rewrite <- app_assoc. simpl.
  rewrite map_app in *. simpl in *. now rewrite trailed_cl_ord_id.
Qed.

Lemma trailing_loop_with_orders_working self orders bar sl_buffer
    spread_buffer l :
  trailing_loop fl Price (with_orders_working self orders) bar sl_buffer
    spread_buffer l
  = trailing_loop fl Price self bar sl_buffer spread_buffer l.
Proof.
  induction l as [| o l IH]; simpl; [reflexivity |].
  unfold is_stop_loss at 1. simpl. fold (is_stop_loss self (cl_ord_id o)).
  now rewrite IH.
Qed.

Lemma trailing_loop_trailed_in_place self bar sl_buffer spread_buffer l :
  trailing_loop fl Price self bar sl_buffer spread_buffer
    (trailed_in_place fl Price self bar sl_buffer spread_buffer l) = [].
Proof.
  induction l as [| o l IH]; simpl; [reflexivity |].
  destruct (is_stop_loss self (cl_ord_id o)) eqn:Hsl; simpl.
  - now rewrite trailed_cl_ord_id, Hsl, trail_order_trailed, IH.
  - now rewrite Hsl.
Qed.

End NetEffect.

(** X: with the working orders keyed by their identifiers, carrying out the
    modifications of one sweep by order identifier comes to trailing the
    legs in place, one after the other, up to the first leg that is not a
    stop-loss: no modification lands on another order. *)
Theorem swept_is_trailed_in_place (fl : Q -> Q) (Price : Q -> Z -> Q)
    (self : EMACross)
    (bar : Bar) (sl_buffer spread_buffer : Q) :
  NoDup (map cl_ord_id (orders_working self)) ->
  swept fl Price self bar sl_buffer spread_buffer
  = trailed_in_place fl Price self bar sl_buffer spread_buffer
      (orders_working self).
Proof.
  intro Hnd. unfold swept, _check_trailing_stops.
  apply (swept_in_place fl Price self bar sl_buffer spread_buffer
           (orders_working self) [] Hnd).
Qed.

Lemma swept_is_trailed_in_place_witness :
  swept exact Price_half_even
    (strategy 1 2 (1 # 10000) [stop_leg; profit_leg] (rate_of 1)) a_bar
    (5 # 10000) (1 # 10000)
  = trailed_in_place exact Price_half_even
      (strategy 1 2 (1 # 10000) [stop_leg; profit_leg] (rate_of 1)) a_bar
      (5 # 10000) (1 # 10000) [stop_leg; profit_leg].
Proof.
  apply (swept_is_trailed_in_place exact Price_half_even
           (strategy 1 2 (1 # 10000) [stop_leg; profit_leg] (rate_of 1))).
  simpl. constructor.
  - intros [H | []]. discriminate.
  - constructor; [intros [] | constructor].
Defined.

(** X: sweeping the same bar a second time, once the modifications of the
    first sweep are in place, modifies nothing. *)
Theorem second_sweep_modifies_nothing (fl : Q -> Q) (Price : Q -> Z -> Q)
    (self : EMACross) (bar : Bar) (sl_buffer spread_buffer : Q) :
  NoDup (map cl_ord_id (orders_working self)) ->
  _check_trailing_stops fl Price
    (with_orders_working self
       (swept fl Price self bar sl_buffer spread_buffer))
    bar sl_buffer spread_buffer = [].
Proof.
  intro Hnd. unfold _check_trailing_stops. simpl.
  rewrite trailing_loop_with_orders_working.
  pose proof (swept_in_place fl Price self bar sl_buffer spread_buffer
                (orders_working self) [] Hnd) as Hplace.
  simpl in Hplace. unfold swept, _check_trailing_stops. rewrite Hplace.
  apply trailing_loop_trailed_in_place.
Qed.

Lemma second_sweep_modifies_nothing_witness :
  let self := strategy 1 2 (1 # 10000) [stop_leg; profit_leg] (rate_of 1) in
  _check_trailing_stops exact Price_half_even self a_bar (5 # 10000) (1 # 10000)
  = [ModifyOrder stop_leg 50000 (2201 # 2000)] /\
  _check_trailing_stops exact Price_half_even
    (with_orders_working self
       (swept exact Price_half_even self a_bar (5 # 10000) (1 # 10000)))
    a_bar (5 # 10000) (1 # 10000) = [].
Proof.
  intro self. split; [vm_compute; reflexivity |].
  apply (second_sweep_modifies_nothing exact Price_half_even self).
  simpl. constructor.
  - intros [H | []]. discriminate.
  - constructor; [intros [] | constructor].
Defined.

Section LeadingRun.

Variable fl : Q -> Q.
Variable Price : Q -> Z -> Q.

Lemma trailed_trailed_to self bar sl_buffer spread_buffer o :
  trailed_to fl Price self bar sl_buffer spread_buffer o
    (trailed fl Price self bar sl_buffer spread_buffer o).
Proof.
  unfold trailed_to.
  destruct (trailed_cases fl Price self bar sl_buffer spread_buffer o)
    as [[Hnil ->] | (p & _ & -> & Hcases)].
  - repeat split.
    unfold trail_order, is_sell, is_buy, gt, lt in Hnil.
    destruct (side o); [reflexivity | |]; simpl.
    + destruct (Qlt_bool _ (price o)) eqn:E; [discriminate |].
      unfold Qlt_bool in E. apply negb_false_iff, Qle_bool_iff in E.
      repeat split; auto using Qle_refl.
    + destruct (Qlt_bool (price o) _) eqn:E; [discriminate |].
      unfold Qlt_bool in E. apply negb_false_iff, Qle_bool_iff in E.
      repeat split; auto using Qle_refl.
  - simpl. repeat split.
    destruct Hcases as [(Hs & -> & Hlt) | (Hs & -> & Hlt)]; rewrite Hs;
      simpl; repeat split; auto using Qle_refl, Qlt_le_weak.
Qed.

Lemma trailed_in_place_run self bar sl_buffer spread_buffer run rest :
  forallb (fun o => is_stop_loss self (cl_ord_id o)) run = true ->
  trailed_in_place fl Price self bar sl_buffer spread_buffer (run ++ rest)
  = map (trailed fl Price self bar sl_buffer spread_buffer) run
    ++ trailed_in_place fl Price self bar sl_buffer spread_buffer rest.
Proof.
  induction run as [| o run IH]; simpl; [reflexivity |].
  intro H. apply andb_true_iff in H as [Ho Hrun].
  rewrite Ho. simpl. now rewrite (IH Hrun).
Qed.

Lemma trailed_in_place_halt self bar sl_buffer spread_buffer rest :
  match rest with
  | [] => True
  | o :: _ => is_stop_loss self (cl_ord_id o) = false
  end ->
  trailed_in_place fl Price self bar sl_buffer spread_buffer rest = rest.
Proof.
  destruct rest as [| o rest]; simpl; [reflexivity |].
  now intros ->.
Qed.

End LeadingRun.

(** X: with the working orders keyed by their identifiers, and the working
    orders made of a run of stop-loss legs followed by nothing or by a leg
    that is not a stop-loss, the sweep leaves the orders after the run as
    they are and trails each leg of the run: same identifier, side and
    quantity, a sell stop at the higher of its price and fl Price(bar.low -
    stop buffer), a buy stop at the lower of its price and fl Price(bar.high +
    stop buffer + spread buffer). *)
Theorem sweep_trails_leading_run (fl : Q -> Q) (Price : Q -> Z -> Q)
    (self : EMACross)
    (bar : Bar) (sl_buffer spread_buffer : Q) (run rest : list Order) :
  NoDup (map cl_ord_id (orders_working self)) ->
  orders_working self = run ++ rest ->
  forallb (fun o => is_stop_loss self (cl_ord_id o)) run = true ->
  match rest with
  | [] => True
  | o :: _ => is_stop_loss self (cl_ord_id o) = false
  end ->
  exists run',
    swept fl Price self bar sl_buffer spread_buffer = run' ++ rest /\
    Forall2 (trailed_to fl Price self bar sl_buffer spread_buffer) run run'.
Proof.
  intros Hnd Horders Hrun Hrest.
  exists (map (trailed fl Price self bar sl_buffer spread_buffer) run). split.
  - pose proof (swept_in_place fl Price self bar sl_buffer spread_buffer
                  (orders_working self) [] Hnd) as Hplace.
    simpl in Hplace. unfold swept, _check_trailing_stops.
    rewrite Hplace, Horders, (trailed_in_place_run _ _ _ _ _ _ _ _ Hrun).
    now rewrite (trailed_in_place_halt _ _ _ _ _ _ _ Hrest).
  - clear. induction run as [| o run IH]; simpl; constructor;
      auto using trailed_trailed_to.
Qed.

Lemma sweep_trails_leading_run_witness :
  exists run',
    swept exact Price_half_even
      (strategy 1 2 (1 # 10000) [stop_leg; profit_leg] (rate_of 1)) a_bar
      (5 # 10000) (1 # 10000) = run' ++ [profit_leg] /\
    Forall2
      (trailed_to exact Price_half_even
         (strategy 1 2 (1 # 10000) [stop_leg; profit_leg] (rate_of 1))
         a_bar (5 # 10000) (1 # 10000))
      [stop_leg] run'.
Proof.
  apply (sweep_trails_leading_run exact Price_half_even
           (strategy 1 2 (1 # 10000) [stop_leg; profit_leg] (rate_of 1))
           a_bar (5 # 10000) (1 # 10000) [stop_leg] [profit_leg]).
  - simpl. constructor.
    + intros [H | []]. discriminate.
    + constructor; [intros [] | constructor].
  - reflexivity.
  - reflexivity.
  - reflexivity.
Defined.

(** X: the sweep ends at the first working order that is not a stop-loss:
    with such an order in the working orders, the sweep is the sweep of the
    orders ahead of it, and every modification is for one of those. *)
Theorem sweep_ends_at_non_stop_leg (fl : Q -> Q) (Price : Q -> Z -> Q)
    (self : EMACross)
    (bar : Bar) (sl_buffer spread_buffer : Q) (ahead behind : list Order)
    (o : Order) :
  orders_working self = ahead ++ o :: behind ->
  is_stop_loss self (cl_ord_id o) = false ->
  _check_trailing_stops fl Price self bar sl_buffer spread_buffer
  = trailing_loop fl Price self bar sl_buffer spread_buffer ahead /\
  forall x q p,
    In (ModifyOrder x q p)
       (_check_trailing_stops fl Price self bar sl_buffer spread_buffer) ->
    In x ahead.
Proof.
  intros Horders Hnot.
  assert (Heq : _check_trailing_stops fl Price self bar sl_buffer spread_buffer
                = trailing_loop fl Price self bar sl_buffer spread_buffer
                  ahead).
  { unfold _check_trailing_stops. rewrite Horders. clear Horders.
    induction ahead as [| a ahead IH]; simpl.
    - now rewrite Hnot.
    - destruct (is_stop_loss self (cl_ord_id a)); simpl; [| reflexivity].
      now rewrite IH. }
  split; [exact Heq |].
  intros x q p Hin. rewrite Heq in Hin.
  now apply trailing_loop_modifies in Hin.
Qed.

Lemma sweep_ends_at_non_stop_leg_witness :
  _check_trailing_stops exact Price_half_even
    (strategy 1 2 (1 # 10000)
       [stop_leg; profit_leg; mkOrder "O-2-SL" BUY 20000 (11200 # 10000)]
       (rate_of 1)) a_bar (5 # 10000) (1 # 10000)
  = trailing_loop exact Price_half_even
      (strategy 1 2 (1 # 10000)
         [stop_leg; profit_leg; mkOrder "O-2-SL" BUY 20000 (11200 # 10000)]
         (rate_of 1)) a_bar (5 # 10000) (1 # 10000) [stop_leg].
Proof.
  destruct (sweep_ends_at_non_stop_leg exact Price_half_even
              (strategy 1 2 (1 # 10000)
                 [stop_leg; profit_leg;
                  mkOrder "O-2-SL" BUY 20000 (11200 # 10000)]
                 (rate_of 1)) a_bar (5 # 10000) (1 # 10000)
              [stop_leg] [mkOrder "O-2-SL" BUY 20000 (11200 # 10000)]
              profit_leg) as [Heq _].
  - reflexivity.
  - reflexivity.
  - exact Heq.
Defined.

Lemma choose_app {A B : Type} (f : A -> option B) (l l' : list A) :
  choose f (l ++ l') = choose f l ++ choose f l'.
Proof.
  induction l as [| a l IH]; simpl; [reflexivity |].
  destruct (f a); simpl; now rewrite IH.
Qed.

Lemma trailing_loop_targets (fl : Q -> Q) (Price : Q -> Z -> Q) self bar
    sl_buffer
    spread_buffer orders id :
  In id (choose modify_target
           (trailing_loop fl Price self bar sl_buffer spread_buffer orders)) ->
  In id (map cl_ord_id orders).
Proof.
  induction orders as [| o rest IH]; simpl; [intros [] |].
  destruct (is_stop_loss self (cl_ord_id o)); simpl; [| intros []].
  rewrite choose_app. intro Hin. apply in_app_or in Hin as [Hin | Hin].
  - destruct (trail_order_cases fl Price self bar sl_buffer spread_buffer o)
      as [Hnil | (p & Heq & _)]; [rewrite Hnil in Hin | rewrite Heq in Hin];
      simpl in Hin; [destruct Hin | destruct Hin as [<- | []]]. now left.
  - right. now apply IH.
Qed.

(** X: a sweep issues at most one modification for each working order: no
    more modifications than working orders and, with the working orders
    keyed by their identifiers, no two modifications for the same order. *)
Theorem sweep_modifies_each_order_once (fl : Q -> Q) (Price : Q -> Z -> Q)
    (self : EMACross) (bar : Bar) (sl_buffer spread_buffer : Q) :
  (List.length
     (_check_trailing_stops fl Price self bar sl_buffer spread_buffer)
   <= List.length (orders_working self))%nat /\
  (NoDup (map cl_ord_id (orders_working self)) ->
   NoDup (choose modify_target
            (_check_trailing_stops fl Price self bar sl_buffer spread_buffer))).
Proof.
  unfold _check_trailing_stops. split.
  - induction (orders_working self) as [| o rest IH]; simpl; [lia |].
    destruct (is_stop_loss self (cl_ord_id o)); simpl; [| lia].
    rewrite length_app.
    destruct (trail_order_cases fl Price self bar sl_buffer spread_buffer o)
      as [Hnil | (p & Heq & _)]; [rewrite Hnil | rewrite Heq]; simpl; lia.
  - induction (orders_working self) as [| o rest IH]; simpl;
      [constructor |].
    intro Hnd. inversion Hnd as [| ? ? Hnot Hnd']; subst.
    destruct (is_stop_loss self (cl_ord_id o)); simpl; [| constructor].
    rewrite choose_app.
    destruct (trail_order_cases fl Price self bar sl_buffer spread_buffer o)
      as [Hnil | (p & Heq & _)]; [rewrite Hnil | rewrite Heq]; simpl.
    + now apply IH.
    + constructor; [| now apply IH].
      intro Hin. apply Hnot. now apply trailing_loop_targets in Hin.
Qed.

Lemma sweep_modifies_each_order_once_witness :
  NoDup (choose modify_target
           (_check_trailing_stops exact Price_half_even
              (strategy 1 2 (1 # 10000) [stop_leg; profit_leg] (rate_of 1))
              a_bar (5 # 10000) (1 # 10000))).
Proof.
  apply (sweep_modifies_each_order_once exact Price_half_even
           (strategy 1 2 (1 # 10000) [stop_leg; profit_leg] (rate_of 1))).
  simpl. constructor.
  - intros [H | []]. discriminate.
  - constructor; [intros [] | constructor].
Defined.

(** ** Start and disposal *)

(** X: [SL_buffer], the ten ticks [on_start] stores, is read by no part of
    [on_bar]: whatever its value, the bar is handled the same way, the stop
    distance being ATR x [SL_atr_multiple]. *)
Theorem on_bar_ignores_SL_buffer (fl : Q -> Q) (Price : Q -> Z -> Q)
    (calculate : SizerArgs -> Z) (self : EMACross) (b : Q) (bt : string)
    (bar : Bar) :
  on_bar fl Price calculate (with_SL_buffer self b) bt bar
  = on_bar fl Price calculate self bt bar.
Proof.
  assert (Hsweep : forall s t l,
            trailing_loop fl Price (with_SL_buffer self b) bar s t l
            = trailing_loop fl Price self bar s t l).
  { intros s t l. induction l as [| o l IH]; simpl; [reflexivity |].
    unfold is_stop_loss at 1. simpl.
    fold (is_stop_loss self (cl_ord_id o)). now rewrite IH. }
  unfold on_bar, _check_trailing_stops. simpl. rewrite Hsweep.
  reflexivity.
Qed.

(** X: after [on_start] on an instrument, the entry buffer is the float
    product tick_size * 3.0: a submitted BUY bracket is entered at
    Price(bar.high + tick_size * 3.0 + spread buffer) and a submitted SELL
    bracket at Price(bar.low - tick_size * 3.0), the sums and the product
    being float operations, priced at the price precision of the
    instrument, and sized at an exchange rate, not 0.0, looked up for the
    quote currency of the instrument. *)
Theorem started_strategy_entries (fl : Q -> Q) (Price : Q -> Z -> Q)
    (calculate : SizerArgs -> Z) (self : EMACross)
    (instrument : Instrument) (bar : Bar) (sl_buffer spread_buffer : Q) :
  let started := fst (on_start fl self instrument) in
  (forall b,
     In (SubmitBracketOrder b)
        (_enter_long fl Price calculate started bar sl_buffer spread_buffer) ->
     so_price (entry_order b)
     = Price (fl (fl (high bar + fl (tick_size instrument * 3))
                  + spread_buffer))
         (price_precision instrument) /\
     stop_loss b = Price (fl (low bar - sl_buffer))
       (price_precision instrument) /\
     exists r,
       get_exchange_rate_for_account self
         (instrument_quote_currency instrument) ASK = Return r /\
       ~ r == 0)
  /\
  (forall b,
     In (SubmitBracketOrder b)
        (_enter_short fl Price calculate started bar sl_buffer spread_buffer) ->
     so_price (entry_order b)
     = Price (fl (low bar - fl (tick_size instrument * 3)))
         (price_precision instrument) /\
     stop_loss b
     = Price (fl (fl (high bar + sl_buffer) + spread_buffer))
         (price_precision instrument) /\
     exists r,
       get_exchange_rate_for_account self
         (instrument_quote_currency instrument) BID = Return r /\
       ~ r == 0).
Proof.
  intro started. split; intros b Hin.
  - apply enter_long_submit_inv in Hin
      as (r & Hr & Hnz & _ & _ & _ & _ & _ & Hp & Hs).
    repeat split; [exact Hp | exact Hs |]. exists r. auto.
  - apply enter_short_submit_inv in Hin
      as (r & Hr & Hnz & _ & _ & _ & _ & _ & Hp & Hs).
    repeat split; [exact Hp | exact Hs |]. exists r. auto.
Qed.

Lemma started_strategy_entries_witness :
  so_price (entry_order tie_bracket)
  = Price_half_even
      (binary64
         (binary64 (high tie_bar + binary64 (binary64 (1 # 100000) * 3))
          + binary64 (5 # 1000000)))
      5.
Proof.
  destruct (started_strategy_entries binary64 Price_half_even
              FixedRiskSizer_calculate
              (strategy 1 1 (1 # 10000) [] (rate_of 1))
              (mkInstrument 5 (binary64 (1 # 100000)) "USD") tie_bar
              (binary64 (5 # 10000)) (binary64 (5 # 1000000)))
    as [Hlong _].
  apply (Hlong tie_bracket).
  vm_compute. right. left. reflexivity.
Defined.

(** X: [on_dispose] after [on_start] unsubscribes from exactly the feeds
    [on_start] subscribed to, in the same order (instrument, bars, quote
    ticks), and does nothing else; the strategy keeps its symbol and bar
    type across [on_start]. *)
Theorem dispose_undoes_subscriptions (fl : Q -> Q) (self : EMACross)
    (instrument : Instrument) :
  let started := fst (on_start fl self instrument) in
  choose unsubscribed (on_dispose started)
  = choose subscribed (snd (on_start fl self instrument)) /\
  List.length (on_dispose started)
  = List.length (choose unsubscribed (on_dispose started)) /\
  choose subscribed (on_dispose started) = [] /\
  symbol started = symbol self /\ bar_type started = bar_type self.
Proof. repeat split. Qed.

(** ** The order identifier tag *)

Lemma occurs_app (c : ascii) (s t : string) :
  occurs c (s ++ t)%string = occurs c s || occurs c t.
Proof.
  induction s as [| d s IH]; simpl; [reflexivity |].
  now rewrite IH, orb_assoc.
Qed.

Lemma replace_slash_clean (s : string) :
  occurs "/"%char (replace_slash s) = false.
Proof.
  induction s as [| c s IH]; simpl; [reflexivity |].
  destruct (Ascii.eqb c "/"%char) eqn:E; simpl; [exact IH |].
  now rewrite E, IH.
Qed.

Lemma replace_slash_none (s : string) :
  occurs "/"%char s = false -> replace_slash s = s.
Proof.
  induction s as [| c s IH]; simpl; [reflexivity |].
  intro H. apply orb_false_iff in H as [Hc Hs].
  now rewrite Hc, (IH Hs).
Qed.

Lemma replace_slash_length (s : string) :
  (String.length (replace_slash s) <= String.length s)%nat.
Proof.
  induction s as [| c s IH]; simpl; [lia |].
  destruct (Ascii.eqb c "/"%char); simpl; lia.
Qed.

Lemma append_length (s t : string) :
  String.length (s ++ t) = (String.length s + String.length t)%nat.
Proof. induction s as [| c s IH]; simpl; [reflexivity | now rewrite IH]. Qed.

(** X: the order identifier tag has a "/" only where the extra tag has one:
    the part from the symbol code has none.  A code without "/" is kept as
    it is, so the tag is then the code followed by the extra tag; the tag is
    never longer than the two together. *)
Theorem order_id_tag_slashes (code extra_id_tag : string) :
  occurs "/"%char (order_id_tag code extra_id_tag)
  = occurs "/"%char extra_id_tag /\
  (occurs "/"%char code = false ->
   order_id_tag code extra_id_tag = (code ++ extra_id_tag)%string) /\
  (String.length (order_id_tag code extra_id_tag)
   <= String.length code + String.length extra_id_tag)%nat.
Proof.
  unfold order_id_tag. repeat split.
  - now rewrite occurs_app, replace_slash_clean.
  - intro H. now rewrite (replace_slash_none _ H).
  - rewrite append_length.
    pose proof (replace_slash_length code). lia.
Qed.

Lemma order_id_tag_slashes_witness :
  order_id_tag "AUDUSD" "-001" = "AUDUSD-001"%string.
Proof.
  apply (order_id_tag_slashes "AUDUSD" "-001"). reflexivity.
Defined.

(** ** Bracket prices *)

Lemma Price_half_even_nearest (x : Q) (k : Z) (precision : Z) :
  Qabs (x - inject_Z k / Qpower 10 precision)
  < (1 # 2) / Qpower 10 precision ->
  Price_half_even x precision == inject_Z k / Qpower 10 precision.
Proof.
  intro Hnear.
  pose proof (scale_positive precision) as Hpos.
  assert (Hnz : ~ Qpower 10 precision == 0).
  { intro H. rewrite H in Hpos. discriminate. }
  rewrite Price_half_even_units, Qred_correct.
  assert (Hunits : half_even_units x precision = k);
    [| now rewrite Hunits].
  unfold half_even_units. cbv zeta.
  set (y := x * Qpower 10 precision).
  assert (Hy : inject_Z k - (1 # 2) < y /\ y < inject_Z k + (1 # 2)).
  { apply Qabs_Qlt_condition in Hnear as [Hlo Hhi].
    apply (Qmult_lt_compat_r _ _ (Qpower 10 precision) Hpos) in Hlo, Hhi.
    assert (E1 : (x - inject_Z k / Qpower 10 precision) * Qpower 10 precision
                 == y - inject_Z k) by (unfold y; field; exact Hnz).
    assert (E2 : (1 # 2) / Qpower 10 precision * Qpower 10 precision
                 == 1 # 2) by (field; exact Hnz).
    assert (E3 : - ((1 # 2) / Qpower 10 precision) * Qpower 10 precision
                 == - (1 # 2)) by (field; exact Hnz).
    rewrite E1 in Hlo, Hhi. rewrite E3 in Hlo. rewrite E2 in Hhi.
    split; lra. }
  destruct Hy as [Hlo Hhi].
  pose proof (Qfloor_le y) as Hfl.
  pose proof (Qlt_floor y) as Hfu.
  set (f := Qfloor y) in *.
  rewrite inject_Z_plus in Hfu. change (inject_Z 1) with 1 in Hfu.
  assert (H1 : (f < k + 1)%Z).
  { rewrite Zlt_Qlt, inject_Z_plus. change (inject_Z 1) with 1. lra. }
  assert (H2 : (k < f + 2)%Z).
  { rewrite Zlt_Qlt, inject_Z_plus. change (inject_Z 2) with 2. lra. }
  destruct (Z.eq_dec f k) as [-> | Hne].
  - assert (H : Qlt_bool (y - inject_Z k) (1 # 2) = true)
      by (apply Qlt_bool_iff; lra).
    now rewrite H.
  - assert (Hk : k = (f + 1)%Z) by lia.
    assert (Hq : inject_Z k == inject_Z f + 1).
    { rewrite Hk, inject_Z_plus. reflexivity. }
    assert (H3 : Qlt_bool (y - inject_Z f) (1 # 2) = false).
    { unfold Qlt_bool. apply negb_false_iff, Qle_bool_iff. lra. }
    assert (H4 : Qlt_bool (1 # 2) (y - inject_Z f) = true)
      by (apply Qlt_bool_iff; lra).
    rewrite H3, H4. lia.
Qed.

(** C4 (as stated, refuted): the entry price of a BUY bracket is not the sum
    bar.high + entry buffer + spread buffer, neither the exact sum nor the
    float sum the code computes: on [tie_bar] the float sum is the double
    next above 1.090565 and the entry price, at five decimal places, is
    1.09057. *)
Lemma bracket_entry_is_rounded :
  let self := tie_strategy in
  let sl_buffer := binary64 (5 # 10000) in
  let spread_buffer := binary64 (5 # 1000000) in
  ~ (forall b,
       In (SubmitBracketOrder b)
          (_enter_long binary64 Price_half_even FixedRiskSizer_calculate
             self tie_bar sl_buffer spread_buffer) ->
       so_price (entry_order b)
       == high tie_bar + entry_buffer self + spread_buffer \/
       so_price (entry_order b)
       == binary64 (binary64 (high tie_bar + entry_buffer self)
                    + spread_buffer)).
Proof.
  intros self sl_buffer spread_buffer H.
  assert (Hin : In (SubmitBracketOrder tie_bracket)
                  (_enter_long binary64 Price_half_even
                     FixedRiskSizer_calculate self tie_bar sl_buffer
                     spread_buffer))
    by (vm_compute; right; left; reflexivity).
  destruct (H _ Hin) as [Heq | Heq]; vm_compute in Heq; discriminate.
Qed.

(** In double arithmetic the entry price follows the float sum: three ticks
    and the spread buffer above the high of [tie_bar] is 1.090565 in exact
    decimals, which [Price_half_even] rounds to 1.09056, but the float sum
    lies above it and the entry price is 1.09057. *)
Example entry_price_follows_float_sum :
  In (SubmitBracketOrder tie_bracket)
     (_enter_long binary64 Price_half_even FixedRiskSizer_calculate
        tie_strategy tie_bar (binary64 (5 # 10000))
        (binary64 (5 # 1000000))) /\
  so_price (entry_order tie_bracket) == 109057 # 100000 /\
  Price_half_even
    ((109053 # 100000) + (1 # 100000) * 3 + (5 # 1000000)) 5
  == 109056 # 100000.
Proof.
  split; [vm_compute; right; left; reflexivity |].
  split; vm_compute; reflexivity.
Qed.

(** The sample entries in double arithmetic: with the bar and the buffers
    the doubles nearest to the sample values, the brackets submitted are
    those of the runs with no rounding error. *)
Example sample_brackets_in_doubles :
  In (SubmitBracketOrder long_bracket)
     (_enter_long binary64 Price_half_even FixedRiskSizer_calculate
        tie_strategy (in_doubles a_bar) (binary64 (5 # 10000))
        (binary64 (1 # 10000))) /\
  In (SubmitBracketOrder short_bracket)
     (_enter_short binary64 Price_half_even FixedRiskSizer_calculate
        tie_strategy (in_doubles a_bar) (binary64 (5 # 10000))
        (binary64 (1 # 10000))).
Proof. split; vm_compute; right; left; reflexivity. Qed.

(** C4 (amended): the prices of a bracket are the sums below, each a float
    sum rounded by [Price] to the price precision: for a BUY, entry =
    Price(bar.high + entry buffer + spread buffer), stop-loss =
    Price(bar.low - stop buffer), take-profit = Price(entry + (entry -
    stop-loss)); for a SELL, entry = Price(bar.low - entry buffer),
    stop-loss = Price(bar.high + stop buffer + spread buffer), take-profit =
    Price(entry - (stop-loss - entry)).  Every submitted bracket carries
    them; with a usable exchange rate the sizer is asked about this entry
    and stop-loss, and with a sized quantity other than 0 the bracket is
    submitted.  When [Price] returns multiples of the price increment and
    returns the multiple a value is less than half an increment away from,
    and the float error of the take-profit sum is below half an increment,
    the take-profit is exactly as far from the entry as the entry is from
    the stop-loss. *)
Theorem bracket_prices (fl : Q -> Q) (Price : Q -> Z -> Q)
    (calculate : SizerArgs -> Z) (self : EMACross) (bar : Bar)
    (sl_buffer spread_buffer : Q) :
  let p := precision self in
  let increment := / Qpower 10 p in
  let buy_entry :=
    Price (fl (fl (high bar + entry_buffer self) + spread_buffer)) p in
  let buy_stop := Price (fl (low bar - sl_buffer)) p in
  let buy_sum := fl (fl buy_entry + fl (fl buy_entry - fl buy_stop)) in
  let sell_entry := Price (fl (low bar - entry_buffer self)) p in
  let sell_stop :=
    Price (fl (fl (high bar + sl_buffer) + spread_buffer)) p in
  let sell_sum := fl (fl sell_entry - fl (fl sell_stop - fl sell_entry)) in
  (forall b,
     In (SubmitBracketOrder b)
        (_enter_long fl Price calculate self bar sl_buffer spread_buffer) ->
     order_side (entry_order b) = BUY /\
     so_price (entry_order b) = buy_entry /\
     stop_loss b = buy_stop /\
     take_profit b = Price buy_sum p)
  /\
  (forall b,
     In (SubmitBracketOrder b)
        (_enter_short fl Price calculate self bar sl_buffer spread_buffer) ->
     order_side (entry_order b) = SELL /\
     so_price (entry_order b) = sell_entry /\
     stop_loss b = sell_stop /\
     take_profit b = Price sell_sum p)
  /\
  (forall r,
     get_exchange_rate_for_account self (quote_currency self) ASK
     = Return r ->
     ~ r == 0 ->
     exists args,
       In (Calculate args)
          (_enter_long fl Price calculate self bar sl_buffer spread_buffer)
       /\ entry args = buy_entry /\ sz_stop_loss args = buy_stop /\
       (calculate args <> 0%Z ->
        exists b,
          In (SubmitBracketOrder b)
             (_enter_long fl Price calculate self bar sl_buffer
                spread_buffer)))
  /\
  (forall r,
     get_exchange_rate_for_account self (quote_currency self) BID
     = Return r ->
     ~ r == 0 ->
     exists args,
       In (Calculate args)
          (_enter_short fl Price calculate self bar sl_buffer spread_buffer)
       /\ entry args = sell_entry /\ sz_stop_loss args = sell_stop /\
       (calculate args <> 0%Z ->
        exists b,
          In (SubmitBracketOrder b)
             (_enter_short fl Price calculate self bar sl_buffer
                spread_buffer)))
  /\
  ((forall x, exists k, Price x p == inject_Z k * increment) ->
   (forall x k,
      Qabs (x - inject_Z k * increment) < (1 # 2) * increment ->
      Price x p == inject_Z k * increment) ->
   (Qabs (buy_sum - (buy_entry + (buy_entry - buy_stop)))
    < (1 # 2) * increment ->
    Price buy_sum p - buy_entry == buy_entry - buy_stop)
   /\
   (Qabs (sell_sum - (sell_entry - (sell_stop - sell_entry)))
    < (1 # 2) * increment ->
    sell_entry - Price sell_sum p == sell_stop - sell_entry)).
Proof.
  intros p increment buy_entry buy_stop buy_sum sell_entry sell_stop
    sell_sum.
  split; [| split; [| split; [| split]]].
  - intros b Hin. apply enter_long_submitted in Hin as [r ->].
    simpl. repeat split.
  - intros b Hin. apply enter_short_submitted in Hin as [r ->].
    simpl. repeat split.
  - intros r Hr Hnz.
    exists (long_args fl Price self bar sl_buffer spread_buffer r).
    destruct (enter_long_table fl Price calculate self bar sl_buffer
                spread_buffer)
      as [(x & Hx & _) | [(x & Hx & Hz & _) | [(x & Hx & _ & Hc & Ht)
                                              | (x & Hx & _ & Hc & Ht)]]];
      rewrite Hr in Hx; inversion Hx; subst x; try contradiction;
      rewrite Ht; simpl; repeat split; auto.
    + intro H. contradiction.
    + intros _. eexists. right. left. reflexivity.
  - intros r Hr Hnz.
    exists (short_args fl Price self bar sl_buffer spread_buffer r).
    destruct (enter_short_table fl Price calculate self bar sl_buffer
                spread_buffer)
      as [(x & Hx & _) | [(x & Hx & Hz & _) | [(x & Hx & _ & Hc & Ht)
                                              | (x & Hx & _ & Hc & Ht)]]];
      rewrite Hr in Hx; inversion Hx; subst x; try contradiction;
      rewrite Ht; simpl; repeat split; auto.
    + intro H. contradiction.
    + intros _. eexists. right. left. reflexivity.
  - intros Hgrid Hnear.
    assert (Hscale : forall a b c : Z,
              inject_Z a * increment
              + (inject_Z a * increment - inject_Z b * increment)
              == inject_Z (a + (a - b)) * increment /\
              inject_Z a * increment
              - (inject_Z b * increment - inject_Z a * increment)
              == inject_Z (a - (b - a)) * increment).
    { intros a b _. unfold Z.sub.
      repeat (rewrite inject_Z_plus || rewrite inject_Z_opp).
      split; ring. }
    split; intro Herr.
    + destruct (Hgrid (fl (fl (high bar + entry_buffer self) + spread_buffer)))
        as [a Ha].
      destruct (Hgrid (fl (low bar - sl_buffer))) as [b Hb].
      fold buy_entry in Ha. fold buy_stop in Hb.
      destruct (Hscale a b 0%Z) as [Hs _].
      assert (Hexact : buy_entry + (buy_entry - buy_stop)
                       == inject_Z (a + (a - b)) * increment)
        by now rewrite Ha, Hb.
      rewrite Hexact in Herr. apply Hnear in Herr.
      rewrite Herr, <- Hexact. ring.
    + destruct (Hgrid (fl (low bar - entry_buffer self))) as [a Ha].
      destruct (Hgrid (fl (fl (high bar + sl_buffer) + spread_buffer)))
        as [b Hb].
      fold sell_entry in Ha. fold sell_stop in Hb.
      destruct (Hscale a b 0%Z) as [_ Hs].
      assert (Hexact : sell_entry - (sell_stop - sell_entry)
                       == inject_Z (a - (b - a)) * increment)
        by now rewrite Ha, Hb.
      rewrite Hexact in Herr. apply Hnear in Herr.
      rewrite Herr, <- Hexact. ring.
Qed.

(** [tie_strategy] on [tie_bar], in double arithmetic: the bracket
    submitted is [tie_bracket], and its take-profit 1.09134 is as far above
    the entry 1.09057 as the stop-loss 1.0898 is below it. *)
Lemma bracket_prices_witness :
  let self := tie_strategy in
  let b := tie_bracket in
  In (SubmitBracketOrder b)
     (_enter_long binary64 Price_half_even FixedRiskSizer_calculate self
        tie_bar (binary64 (5 # 10000)) (binary64 (5 # 1000000))) /\
  order_side (entry_order b) = BUY /\
  take_profit b - so_price (entry_order b)
  == so_price (entry_order b) - stop_loss b.
Proof.
  intros self b.
  destruct (bracket_prices binary64 Price_half_even
              FixedRiskSizer_calculate self tie_bar (binary64 (5 # 10000))
              (binary64 (5 # 1000000))) as (Hlong & _ & _ & _ & Hratio).
  assert (Hin : In (SubmitBracketOrder b)
                  (_enter_long binary64 Price_half_even
                     FixedRiskSizer_calculate self tie_bar
                     (binary64 (5 # 10000)) (binary64 (5 # 1000000))))
    by (vm_compute; right; left; reflexivity).
  destruct (Hlong b Hin) as (Hside & He & Hs & Ht).
  split; [exact Hin | split; [exact Hside |]].
  pose proof (Hratio
                (fun x => Price_half_even_is_on_grid x (precision self))
                (fun x k => Price_half_even_nearest x k (precision self)))
    as [Hbuy _].
  rewrite Ht, He, Hs. apply Hbuy. vm_compute. reflexivity.
Defined.

(** * Properties of the Interactive Brokers instrument filter *)

Module IBConfigFacts.

Import IBConfig.

(** [rsplit] either finds no separator and returns the string, or cuts it at
    a separator after which there is no other. *)
Lemma rsplit_shape (s : string) (sep : ascii) :
  (rsplit s sep = [s] /\ occurs sep s = false) \/
  (exists a b, rsplit s sep = [a; b] /\ s = (a ++ String sep b)%string /\
               occurs sep b = false).
Proof.
  induction s as [| c s IH]; simpl; [now left |].
  destruct IH as [[-> Hnone] | (a & b & -> & Hs & Hb)].
  - destruct (Ascii.eqb c sep) eqn:E.
    + right. exists EmptyString, s. apply Ascii.eqb_eq in E. subst c.
      simpl. auto.
    + left. simpl. now rewrite Hnone.
  - right. exists (String c a), b. simpl. rewrite <- Hs. auto.
Qed.

Lemma occurs_cut (sep : ascii) (a b : string) :
  occurs sep (a ++ String sep b)%string = true.
Proof.
  rewrite occurs_app. simpl. rewrite Ascii.eqb_refl. simpl.
  apply orb_true_r.
Qed.

Lemma rsplit_none (s : string) (sep : ascii) :
  occurs sep s = false -> rsplit s sep = [s].
Proof.
  intro Hnone.
  destruct (rsplit_shape s sep) as [[H _] | (a & b & _ & Hs & _)];
    [exact H |].
  rewrite Hs, occurs_cut in Hnone. discriminate.
Qed.

Lemma rsplit_last (a b : string) (sep : ascii) :
  occurs sep b = false -> rsplit (a ++ String sep b) sep = [a; b].
Proof.
  intro Hb. induction a as [| c a IH]; simpl.
  - now rewrite (rsplit_none b sep Hb), Ascii.eqb_refl.
  - now rewrite IH.
Qed.

Section FilterFacts.

Variable dict : Type.

(** X: [from_instrument_id] cuts the value at its last ".": for a symbol [s]
    (dots allowed) and an exchange [e] without ".", and keyword arguments
    that name neither [symbol] nor [primaryExchange], the value s.e gives the
    filter with symbol [s] and primaryExchange [e], every other field being
    the keyword argument given for it or else its default. *)
Theorem from_instrument_id_cuts_at_last_dot (s e : string)
    (kwargs : Kwargs dict) :
  occurs "."%char e = false ->
  kw_symbol kwargs = None ->
  kw_primaryExchange kwargs = None ->
  from_instrument_id (s ++ String "."%char e) kwargs
  = Returns
      (mkFilter dict (given (kw_secType kwargs) None) (Some s)
         (given (kw_exchange kwargs) None) (Some e)
         (given (kw_load_futures kwargs) false)
         (given (kw_load_options kwargs) false)
         (given (kw_option_kwargs kwargs) None)).
Proof.
  intros He Hsym Hprim. unfold from_instrument_id.
  now rewrite (rsplit_last s e "."%char He), Hsym, Hprim.
Qed.

(** X: [from_instrument_id] raises ValueError exactly when the value has no
    ".", whatever the keyword arguments; it raises TypeError exactly when
    the value has a "." and the keyword arguments name [symbol] or
    [primaryExchange]. *)
Theorem from_instrument_id_raises (value : string) (kwargs : Kwargs dict) :
  (from_instrument_id value kwargs = Raises UnpackValueError <->
   occurs "."%char value = false)
  /\
  (from_instrument_id value kwargs = Raises MultipleValuesTypeError <->
   occurs "."%char value = true /\
   (kw_symbol kwargs <> None \/ kw_primaryExchange kwargs <> None)).
Proof.
  unfold from_instrument_id.
  destruct (rsplit_shape value "."%char)
    as [[-> Hnone] | (a & b & -> & Hv & Hb)].
  - rewrite Hnone. split; split; try discriminate; auto.
    intros [H _]. discriminate.
  - rewrite Hv, occurs_cut.
    destruct (kw_symbol kwargs), (kw_primaryExchange kwargs);
      split; split; try discriminate; auto;
      try (intros _; split; [reflexivity |]);
      try (left; discriminate); try (right; discriminate).
    intros [_ [H | H]]; congruence.
Qed.

(** X: a filter returned by [from_instrument_id] holds a symbol and a
    primaryExchange that, joined by ".", give the value back; the
    primaryExchange has no "." in it. *)
Theorem from_instrument_id_round_trip (value : string)
    (kwargs : Kwargs dict) (f : InteractiveBrokersInstrumentFilter dict) :
  from_instrument_id value kwargs = Returns f ->
  exists s e,
    symbol f = Some s /\ primaryExchange f = Some e /\
    value = (s ++ String "."%char e)%string /\
    occurs "."%char e = false.
Proof.
  unfold from_instrument_id.
  destruct (rsplit_shape value "."%char)
    as [[-> _] | (a & b & -> & Hv & Hb)]; [discriminate |].
  destruct (kw_symbol kwargs), (kw_primaryExchange kwargs);
    try discriminate.
  intro H. inversion H; subst f. simpl. exists a, b. auto.
Qed.

(** X: for a value s.e whose part [e] after the last "." has no ".",
    [stock], [forex] and [future] return filters that differ in secType
    alone ("STK", "CASH", "FUT"), with no exchange of their own and with
    load_futures and load_options off ([future] included); the contract of
    each has symbol [s] and both exchange and primaryExchange [e]. *)
Theorem stock_forex_future_contract (s e : string) :
  occurs "."%char e = false ->
  let value := (s ++ String "."%char e)%string in
  let filter t :=
    mkFilter dict (Some t) (Some s) None (Some e) false false None in
  let contract t := mkContract (Some t) (Some s) (Some e) (Some e) in
  (stock dict value = Returns (filter "STK"%string) /\
   to_contract (filter "STK"%string) = contract "STK"%string) /\
  (forex dict value = Returns (filter "CASH"%string) /\
   to_contract (filter "CASH"%string) = contract "CASH"%string) /\
  (future dict value = Returns (filter "FUT"%string) /\
   to_contract (filter "FUT"%string) = contract "FUT"%string).
Proof.
  intros He value filter contract.
  unfold stock, forex, future, from_instrument_id, value.
  rewrite (rsplit_last s e "."%char He). simpl.
  repeat split.
Qed.

(** X: the contract of a filter takes the exchange of the filter when that
    is a non-empty string and its primaryExchange otherwise (an empty
    exchange counts as none); so the contract has a non-empty exchange
    exactly when the filter has a non-empty exchange or primaryExchange.
    secType, symbol and primaryExchange are carried over. *)
Theorem to_contract_exchange
    (self : InteractiveBrokersInstrumentFilter dict) :
  (truthy (exchange self) = true ->
   c_exchange (to_contract self) = exchange self) /\
  (truthy (exchange self) = false ->
   c_exchange (to_contract self) = primaryExchange self) /\
  truthy (c_exchange (to_contract self))
  = truthy (exchange self) || truthy (primaryExchange self) /\
  c_secType (to_contract self) = secType self /\
  c_symbol (to_contract self) = symbol self /\
  c_primaryExchange (to_contract self) = primaryExchange self.
Proof.
  unfold to_contract, or_else. simpl.
  destruct (truthy (exchange self)) eqn:E; repeat split;
    try discriminate; auto.
Qed.

End FilterFacts.

Lemma from_instrument_id_cuts_at_last_dot_witness :
  from_instrument_id "BRK.B.NYSE" (no_kwargs unit)
  = Returns
      (mkFilter unit None (Some "BRK.B"%string) None (Some "NYSE"%string)
         false false None).
Proof.
  apply (from_instrument_id_cuts_at_last_dot unit "BRK.B" "NYSE"
           (no_kwargs unit)); reflexivity.
Defined.

Lemma from_instrument_id_round_trip_witness :
  exists s e,
    Some "EUR"%string = Some s /\ Some "IDEALPRO"%string = Some e /\
    "EUR.IDEALPRO"%string = (s ++ String "."%char e)%string /\
    occurs "."%char e = false.
Proof.
  apply (from_instrument_id_round_trip unit "EUR.IDEALPRO"
           (sec_type_only unit "CASH")
           (mkFilter unit (Some "CASH"%string) (Some "EUR"%string) None
              (Some "IDEALPRO"%string) false false None)).
  reflexivity.
Defined.

Lemma stock_forex_future_contract_witness :
  stock unit "AAPL.NASDAQ"
  = Returns
      (mkFilter unit (Some "STK"%string) (Some "AAPL"%string) None
         (Some "NASDAQ"%string) false false None).
Proof.
  apply (stock_forex_future_contract unit "AAPL" "NASDAQ"). reflexivity.
Defined.

Lemma to_contract_exchange_witness :
  c_exchange
    (to_contract
       (mkFilter unit (Some "STK"%string) (Some "AAPL"%string)
          (Some EmptyString) (Some "NASDAQ"%string) false false None))
  = Some "NASDAQ"%string.
Proof.
  destruct (to_contract_exchange unit
              (mkFilter unit (Some "STK"%string) (Some "AAPL"%string)
                 (Some EmptyString) (Some "NASDAQ"%string) false false None))
    as (_ & Hfallback & _).
  apply Hfallback. reflexivity.
Defined.

End IBConfigFacts.
